(** * GLAM simulation (glambox/simulation.py): a shallow embedding

    The module simulates the gaze-weighted linear accumulator model:
    [make_R] turns item values and gaze into accumulation rates,
    [simulate_trial] draws one (choice, rt) pair, [simulate_subject] and
    [predict] collect such pairs into tables.

    Numbers.  The program computes with float64.  Here a finite float is a
    real number (no rounding, no overflow, one zero) and the three values
    the code tests for with [np.isnan] and [np.isfinite] are constructors
    of their own; the arithmetic on them follows IEEE 754 as numpy applies
    it (division by zero answers with an infinity or with nan, it does not
    raise).

    Randomness.  The three samplers the code calls ([np.random.uniform],
    [np.random.choice], [scipy.stats.invgauss.rvs]) are variables of a
    section: functions of their arguments and of the generator state.

    Loops.  The [while] loop of [simulate_trial] has no bound in the
    source; the embedding runs it on fuel and answers [OutOfFuel] when the
    fuel is spent before the loop ends. *)

From Stdlib Require Import Reals Lra Lia String DecimalString DecimalNat List Bool Arith ZArith.
Import ListNotations.
Open Scope R_scope.

(** ** Floats *)

Inductive float : Type :=
| Fin (x : R)
| PInf
| NInf
| NaN.

Definition Rltb (a b : R) : bool := if Rlt_dec a b then true else false.
Definition Reqb (a b : R) : bool := if Req_EM_T a b then true else false.

Definition fisnan (a : float) : bool :=
  match a with NaN => true | _ => false end.

Definition fisfinite (a : float) : bool :=
  match a with Fin _ => true | _ => false end.

Definition fneg (a : float) : float :=
  match a with
  | Fin x => Fin (- x)
  | PInf => NInf
  | NInf => PInf
  | NaN => NaN
  end.

Definition fadd (a b : float) : float :=
  match a, b with
  | NaN, _ | _, NaN => NaN
  | Fin x, Fin y => Fin (x + y)
  | PInf, NInf | NInf, PInf => NaN
  | PInf, _ | _, PInf => PInf
  | NInf, _ | _, NInf => NInf
  end.

Definition fsub (a b : float) : float := fadd a (fneg b).

(** An infinity of sign [pos] multiplied by the finite [x]. *)
Definition finf_times (pos : bool) (x : R) : float :=
  if Rltb 0 x then (if pos then PInf else NInf)
  else if Rltb x 0 then (if pos then NInf else PInf)
  else NaN.

Definition fmul (a b : float) : float :=
  match a, b with
  | NaN, _ | _, NaN => NaN
  | Fin x, Fin y => Fin (x * y)
  | PInf, Fin y | Fin y, PInf => finf_times true y
  | NInf, Fin y | Fin y, NInf => finf_times false y
  | PInf, PInf | NInf, NInf => PInf
  | PInf, NInf | NInf, PInf => NInf
  end.

(** Division as numpy performs it on float64: a zero divisor gives an
    infinity with the sign of the dividend (the zero is taken as +0), and
    0/0 gives nan. *)
Definition fdiv (a b : float) : float :=
  match a, b with
  | NaN, _ | _, NaN => NaN
  | Fin x, Fin y => if Reqb y 0 then finf_times true x else Fin (x / y)
  | Fin _, PInf | Fin _, NInf => Fin 0
  | PInf, Fin y => if Rltb y 0 then NInf else PInf
  | NInf, Fin y => if Rltb y 0 then PInf else NInf
  | PInf, PInf | PInf, NInf | NInf, PInf | NInf, NInf => NaN
  end.

Definition fexp (a : float) : float :=
  match a with
  | Fin x => Fin (exp x)
  | PInf => PInf
  | NInf => Fin 0
  | NaN => NaN
  end.

(** [a < b]; every comparison with nan is false. *)
Definition flt (a b : float) : bool :=
  match a, b with
  | NaN, _ | _, NaN => false
  | Fin x, Fin y => Rltb x y
  | NInf, NInf => false
  | NInf, _ => true
  | _, NInf => false
  | PInf, _ => false
  | Fin _, PInf => true
  end.

(** [np.maximum] and [np.minimum]: nan wins. *)
Definition fmax2 (a b : float) : float :=
  if fisnan a then a else if fisnan b then b
  else if flt a b then b else a.

Definition fmin2 (a b : float) : float :=
  if fisnan a then a else if fisnan b then b
  else if flt b a then b else a.

(** ** Exceptions and results *)

Inductive exn : Type :=
| ValueError
| IndexError
| KeyError
| TypeError.

Inductive outcome (A : Type) : Type :=
| Returned (a : A)
| Raised (e : exn)
| OutOfFuel.

Arguments Returned {A} a.
Arguments Raised {A} e.
Arguments OutOfFuel {A}.

Definition bind {A B} (m : outcome A) (k : A -> outcome B) : outcome B :=
  match m with
  | Returned a => k a
  | Raised e => Raised e
  | OutOfFuel => OutOfFuel
  end.

Notation "x <- m ;; k" := (bind m (fun x => k))
  (at level 61, m at next level, right associativity).
Notation "' p <- m ;; k" := (bind m (fun p => k))
  (at level 61, p pattern, m at next level, right associativity).

Fixpoint mapM {A B} (f : A -> outcome B) (l : list A) : outcome (list B) :=
  match l with
  | [] => Returned []
  | a :: t => b <- f a ;; bs <- mapM f t ;; Returned (b :: bs)
  end.

(** ** numpy on one-dimensional arrays *)

Fixpoint zip_with {A B C} (f : A -> B -> C) (l : list A) (m : list B) : list C :=
  match l, m with
  | a :: l', b :: m' => f a b :: zip_with f l' m'
  | _, _ => []
  end.

(** An elementwise operation on two arrays: equal lengths, or one of the
    two has length 1 and is broadcast; anything else is a ValueError. *)
Definition np_binop (f : float -> float -> float) (a b : list float)
  : outcome (list float) :=
  if (length a =? length b)%nat then Returned (zip_with f a b)
  else match a, b with
       | [x], _ => Returned (map (f x) b)
       | _, [y] => Returned (map (fun x => f x y) a)
       | _, _ => Raised ValueError
       end.

(** [a[i]] *)
Definition np_get (a : list float) (i : nat) : outcome float :=
  match nth_error a i with
  | Some x => Returned x
  | None => Raised IndexError
  end.

(** [a[idx]] for an index array *)
Definition np_take (a : list float) (idx : list nat) : outcome (list float) :=
  mapM (np_get a) idx.

(** [np.max(a)], [np.min(a)]: a ValueError on the empty array. *)
Definition np_max (a : list float) : outcome float :=
  match a with
  | [] => Raised ValueError
  | x :: t => Returned (fold_left fmax2 t x)
  end.

Definition np_min (a : list float) : outcome float :=
  match a with
  | [] => Raised ValueError
  | x :: t => Returned (fold_left fmin2 t x)
  end.

(** [np.argmin(a)]: the first index of the minimum, the first nan if there
    is one. *)
Fixpoint argmin_from (best_i : nat) (best : float) (i : nat) (l : list float)
  : nat :=
  match l with
  | [] => best_i
  | x :: t =>
      if fisnan best then best_i
      else if fisnan x || flt x best then argmin_from i x (S i) t
      else argmin_from best_i best (S i) t
  end.

Definition np_argmin (a : list float) : outcome nat :=
  match a with
  | [] => Raised ValueError
  | x :: t => Returned (argmin_from 0%nat x 1%nat t)
  end.

(** ** make_R *)

(** [np.arange(n_items)[np.arange(n_items) != i]] *)
Definition others (n_items i : nat) : list nat :=
  filter (fun j => negb (j =? i)%nat) (seq 0 n_items).

Definition make_R (v tau gamma : float) (values gaze : list float)
  : outcome (list float) :=
  let n_items := length values in
  gv <- np_binop fmul gaze values ;;
  ugv <- np_binop fmul (map (fun g => fmul (fsub (Fin 1) g) gamma) gaze) values ;;
  A <- np_binop fadd gv ugv ;;
  R_star <- mapM (fun i =>
                    a <- np_get A i ;;
                    o <- np_take A (others n_items i) ;;
                    m <- np_max o ;;
                    Returned (fsub a m))
                 (seq 0 n_items) ;;
  Returned (map (fun r => fdiv v (fadd (Fin 1) (fexp (fmul (fneg tau) r)))) R_star).

(** ** The random source and simulate_trial *)

(** The value bound to [choice]: an item index, or [np.nan] while the race
    is being resampled. *)
Inductive choice_val : Type :=
| Idx (i : nat)
| ChoiceNaN.

(** [parameters]: the tuple (v, gamma, s, tau, t0). *)
Definition parameters : Type := (float * float * float * float * float)%type.

Section Simulation.

(** State of the generator behind [np.random] and [scipy.stats]. *)
Variable rng : Type.

(** [np.random.uniform(low, high)] *)
Variable random_uniform : float -> float -> rng -> float * rng.

(** [np.random.choice(n)] for [n > 0] *)
Variable random_choice : nat -> rng -> nat * rng.

(** [invgauss.rvs(mu=mean, scale=scale)]: the sampler may answer with any
    float, a negative or a non-finite one too. *)
Variable invgauss_rvs : float -> float -> rng -> float * rng.

(** The [for i in range(n_items)] loop of the race: one first-passage
    time for each rate of [R] (which has [n_items] entries). *)
Fixpoint sample_FPTs (boundary s : float) (R : list float) (g : rng)
  : list float * rng :=
  match R with
  | [] => ([], g)
  | r :: R' =>
      let mu := fdiv boundary r in
      let lam := fmul (fdiv boundary s) (fdiv boundary s) in
      let (x, g1) := invgauss_rvs (fdiv mu lam) lam g in
      let (xs, g2) := sample_FPTs boundary s R' g1 in
      (x :: xs, g2)
  end.

(** One pass through the body of the [while] loop. *)
Definition race_body (p : parameters) (values gaze : list float)
           (boundary : float) (g : rng)
  : outcome (choice_val * float * rng) :=
  let '(v, gamma, s, tau, t0) := p in
  R <- make_R v tau gamma values gaze ;;
  let (FPTs, g1) := sample_FPTs boundary s R g in
  rt <- np_min FPTs ;;
  if flt rt (Fin 0) || negb (fisfinite rt) then
    Returned (ChoiceNaN, NaN, g1)
  else
    choice <- np_argmin FPTs ;;
    Returned (Idx choice, fadd rt t0, g1).

(** [while np.isnan(rt): ...], on fuel. *)
Fixpoint race_loop (fuel : nat) (p : parameters) (values gaze : list float)
         (boundary : float) (choice : choice_val) (rt : float) (g : rng)
  : outcome (choice_val * float * rng) :=
  if fisnan rt then
    match fuel with
    | O => OutOfFuel
    | S fuel' =>
        '(choice', rt', g') <- race_body p values gaze boundary g ;;
        race_loop fuel' p values gaze boundary choice' rt' g'
    end
  else Returned (choice, rt, g).

(** [choice] is not bound before the loop; its body runs at least once,
    since [rt] starts as nan. *)
Definition simulate_trial (fuel : nat) (p : parameters)
           (values gaze : list float) (boundary error_weight : float)
           (error_range : float * float) (g : rng)
  : outcome (choice_val * float * rng) :=
  let n_items := length values in
  let (u, g1) := random_uniform (Fin 0) (Fin 1) g in
  if flt u error_weight then
    let (rt, g2) := random_uniform (fst error_range) (snd error_range) g1 in
    if (n_items =? 0)%nat then Raised ValueError
    else
      let (choice, g3) := random_choice n_items g2 in
      Returned (Idx choice, rt, g3)
  else
    race_loop fuel p values gaze boundary ChoiceNaN NaN g1.

End Simulation.

(** ** Tables *)

(** A cell of a pandas table: an integer, a float or a string. *)
Inductive cell : Type :=
| Int (z : Z)
| Float (x : float)
| Str (s : string).

(** A row is a labelled series; a table is the list of its rows, each one
    carrying the column labels. *)
Definition row : Type := list (string * cell).
Definition DataFrame : Type := list row.

Fixpoint row_lookup (r : row) (k : string) : option cell :=
  match r with
  | [] => None
  | (k', c) :: r' => if String.eqb k' k then Some c else row_lookup r' k
  end.

(** [row[k]] *)
Definition row_get (r : row) (k : string) : outcome cell :=
  match row_lookup r k with
  | Some c => Returned c
  | None => Raised KeyError
  end.

(** [row[k] = c]: overwrite the label if the row has it, else add it. *)
Fixpoint row_set (r : row) (k : string) (c : cell) : row :=
  match r with
  | [] => [(k, c)]
  | (k', c') :: r' =>
      if String.eqb k' k then (k, c) :: r' else (k', c') :: row_set r' k c
  end.

(** [df[k]] *)
Definition df_col (df : DataFrame) (k : string) : outcome (list cell) :=
  mapM (fun r => row_get r k) df.

(** [a[mask]] *)
Fixpoint select {A} (mask : list bool) (a : list A) : list A :=
  match mask, a with
  | b :: mask', x :: a' => if b then x :: select mask' a' else select mask' a'
  | _, _ => []
  end.

(** [==] on floats (nan differs from itself) and on cells (an integer and
    a float compare by value, a string equals no number). *)
Definition float_eqb (a b : float) : bool :=
  match a, b with
  | Fin x, Fin y => Reqb x y
  | PInf, PInf | NInf, NInf => true
  | _, _ => false
  end.

Definition cell_eqb (a b : cell) : bool :=
  match a, b with
  | Int x, Int y => Z.eqb x y
  | Int x, Float f | Float f, Int x => float_eqb (Fin (IZR x)) f
  | Float f, Float h => float_eqb f h
  | Str s, Str t => String.eqb s t
  | _, _ => false
  end.

(** A cell read as a number.  The item and rt columns hold numbers; a
    string there is a TypeError as soon as the cell is read. *)
Definition cell_float (c : cell) : outcome float :=
  match c with
  | Int z => Returned (Fin (IZR z))
  | Float x => Returned x
  | Str _ => Raised TypeError
  end.

(** [parameters[p] = series]: the series must hold exactly one number; an
    empty one cannot be stored in the array element. *)
Definition assign_scalar (l : list cell) : outcome float :=
  match l with
  | [c] => match c with
           | Int z => Returned (Fin (IZR z))
           | Float x => Returned x
           | Str _ => Raised ValueError
           end
  | _ => Raised ValueError
  end.

Definition choice_cell (c : choice_val) : cell :=
  match c with
  | Idx i => Int (Z.of_nat i)
  | ChoiceNaN => Float NaN
  end.

Definition choice_float (c : choice_val) : float :=
  match c with
  | Idx i => Fin (INR i)
  | ChoiceNaN => NaN
  end.

Definition nat_str (n : nat) : string :=
  NilEmpty.string_of_uint (Nat.to_uint n).

(** ['item_value_{}'.format(i)], ['gaze_{}'.format(i)] *)
Definition value_col (i : nat) : string := "item_value_" ++ nat_str i.
Definition gaze_col (i : nat) : string := "gaze_" ++ nat_str i.

(** [df[k] = a]: the array must have one entry for each row. *)
Definition df_set_col (df : DataFrame) (k : string) (a : list cell)
  : outcome DataFrame :=
  if (length a =? length df)%nat
  then Returned (zip_with (fun r c => row_set r k c) df a)
  else Raised ValueError.

(** A two-dimensional array as the list of its rows; [m[i]], [m[:, i]] and
    [np.repeat(a, n)]. *)
Definition matrix : Type := list (list float).

Definition mat_row (m : matrix) (i : nat) : outcome (list float) :=
  match nth_error m i with
  | Some r => Returned r
  | None => Raised IndexError
  end.

Definition mat_col (m : matrix) (i : nat) : outcome (list float) :=
  mapM (fun r => np_get r i) m.

Definition np_repeat {A} (a : list A) (n : nat) : list A :=
  flat_map (fun x => repeat x n) a.

(** The fitted model that [predict] reads. *)
Record model : Type := {
  data : DataFrame;
  estimates : DataFrame;
  depends_on : list (string * option string);
  n_items : nat
}.

(** [depends_on.get(parameter)]: [None] for an absent key and for a key
    bound to [None]. *)
Fixpoint dict_get (d : list (string * option string)) (k : string)
  : option string :=
  match d with
  | [] => None
  | (k', v) :: d' => if String.eqb k' k then v else dict_get d' k
  end.

(** ** simulate_subject and predict *)

Section Datasets.

Variable rng : Type.
Variable random_uniform : float -> float -> rng -> float * rng.
Variable random_choice : nat -> rng -> nat * rng.
Variable invgauss_rvs : float -> float -> rng -> float * rng.

Let trial := simulate_trial rng random_uniform random_choice invgauss_rvs.

(** A [for] loop whose body draws from the generator and yields one
    value for each element. *)
Fixpoint mapM_st {A B} (f : A -> rng -> outcome (B * rng)) (l : list A)
         (g : rng) : outcome (list B * rng) :=
  match l with
  | [] => Returned ([], g)
  | a :: t =>
      '(b, g1) <- f a g ;;
      '(bs, g2) <- mapM_st f t g1 ;;
      Returned (b :: bs, g2)
  end.

(** The pairs (trial, repeat) in the order of the two nested loops. *)
Definition trial_repeats (n_trials n_repeats : nat) : list (nat * nat) :=
  flat_map (fun t => map (pair t) (seq 0 n_repeats)) (seq 0 n_trials).

(** The columns [item_value_i] and [gaze_i], added for each item. *)
Fixpoint add_item_columns (values gaze : matrix) (n_repeats : nat)
         (items : list nat) (df : DataFrame) : outcome DataFrame :=
  match items with
  | [] => Returned df
  | i :: items' =>
      vc <- mat_col values i ;;
      df1 <- df_set_col df (value_col i) (map Float (np_repeat vc n_repeats)) ;;
      gc <- mat_col gaze i ;;
      df2 <- df_set_col df1 (gaze_col i) (map Float (np_repeat gc n_repeats)) ;;
      add_item_columns values gaze n_repeats items' df2
  end.

(** [values.shape] of a two-dimensional array: the number of rows and
    the length of a row. *)
Definition simulate_subject (fuel : nat) (p : parameters)
           (values gaze : matrix) (n_repeats : nat) (subject : float)
           (boundary error_weight : float) (error_range : float * float)
           (g : rng) : outcome (DataFrame * rng) :=
  let n_trials := length values in
  let n_items := length (hd [] values) in
  '(sims, g') <-
    mapM_st (fun '(t, r) g0 =>
               vs <- mat_row values t ;;
               gz <- mat_row gaze t ;;
               '(choice, rt, g1) <-
                 trial fuel p vs gz boundary error_weight error_range g0 ;;
               Returned ((t, r, choice, rt), g1))
            (trial_repeats n_trials n_repeats) g ;;
  let df := map (fun '(t, r, choice, rt) =>
                   [("subject"%string, Float (fmul (Fin 1) subject));
                    ("trial"%string, Float (Fin (INR t)));
                    ("repeat"%string, Float (Fin (INR r)));
                    ("choice"%string, Float (choice_float choice));
                    ("rt"%string, Float rt)]) sims in
  df' <- add_item_columns values gaze n_repeats (seq 0 n_items) df ;;
  Returned (df', g').

(** Lines 153-163: the estimate of one parameter for the trial [r]. *)
Definition resolve_parameter (m : model) (r : row)
           (subject_estimates : DataFrame) (parameter : string)
  : outcome float :=
  match dict_get (depends_on m) parameter with
  | Some dependence =>
      condition <- row_get r dependence ;;
      dep <- df_col subject_estimates dependence ;;
      par <- df_col subject_estimates parameter ;;
      assign_scalar
        (firstn 1 (select (map (fun c => cell_eqb c condition) dep) par))
  | None =>
      par <- df_col subject_estimates parameter ;;
      assign_scalar (firstn 1 par)
  end.

(** Lines 165-170: the extrema of the rt column over the rows of
    [subject]. *)
Definition subject_rts (m : model) (subject : cell)
  : outcome (list float) :=
  rts <- df_col (data m) "rt" ;;
  subjs <- df_col (data m) "subject" ;;
  mapM cell_float (select (map (fun c => cell_eqb c subject) subjs) rts).

Definition error_range_of (m : model) (subject : cell)
  : outcome (float * float) :=
  a <- subject_rts m subject ;;
  rt_min <- np_min a ;;
  b <- subject_rts m subject ;;
  rt_max <- np_max b ;;
  Returned (rt_min, rt_max).

(** Lines 147-173: what the loop body computes for the observed trial
    [r] before it simulates. *)
Definition trial_inputs (m : model) (r : row)
  : outcome (parameters * list float * list float * (float * float)) :=
  subject <- row_get r "subject" ;;
  _ <- row_get r "trial" ;;
  subj_col <- df_col (estimates m) "subject" ;;
  let subject_estimates :=
    select (map (fun c => cell_eqb c subject) subj_col) (estimates m) in
  v <- resolve_parameter m r subject_estimates "v" ;;
  gamma <- resolve_parameter m r subject_estimates "gamma" ;;
  s <- resolve_parameter m r subject_estimates "s" ;;
  tau <- resolve_parameter m r subject_estimates "tau" ;;
  t0 <- resolve_parameter m r subject_estimates "t0" ;;
  error_range <- error_range_of m subject ;;
  vcells <- mapM (row_get r) (map value_col (seq 0 (n_items m))) ;;
  values <- mapM cell_float vcells ;;
  gcells <- mapM (row_get r) (map gaze_col (seq 0 (n_items m))) ;;
  gaze <- mapM cell_float gcells ;;
  Returned ((v, gamma, s, tau, t0), values, gaze, error_range).

(** The row appended for one repeat: a copy of the observed row with
    choice, rt and repeat set. *)
Definition pred_row (r : row) (choice : choice_val) (rt : float)
           (rep : nat) : row :=
  row_set (row_set (row_set r "choice" (choice_cell choice))
                   "rt" (Float rt))
          "repeat" (Int (Z.of_nat rep)).

(** The body of the loop over the observed trials. *)
Definition predict_row (fuel : nat) (m : model) (n_repeats : nat)
           (boundary error_weight : float) (r : row) (g : rng)
  : outcome (list row * rng) :=
  '(p, values, gaze, error_range) <- trial_inputs m r ;;
  mapM_st (fun rep g0 =>
             '(choice, rt, g1) <-
               trial fuel p values gaze boundary error_weight error_range g0 ;;
             Returned (pred_row r choice rt rep, g1))
          (seq 0 n_repeats) g.

(** [verbose] only switches the progress bar and the printed line.  The
    result is the list of the appended rows; its cells are read by label,
    and the order in which pandas lays out the columns of the appended
    table is not part of the model. *)
Definition predict (fuel : nat) (m : model) (n_repeats : nat)
           (boundary error_weight : float) (verbose : bool) (g : rng)
  : outcome (DataFrame * rng) :=
  _ <- df_col (data m) "subject" ;;
  '(groups, g') <-
    mapM_st (predict_row fuel m n_repeats boundary error_weight)
            (data m) g ;;
  Returned (concat groups, g').

End Datasets.

(** ** Derived columns (glam/plots.py)

    The functions that add a column computed from the item columns.  The
    columns of a table are the labels of its rows (the rows of a table
    carry the same labels); the table without rows is [pd.DataFrame()],
    which has no column. *)

Definition df_columns (df : DataFrame) : list string :=
  match df with
  | [] => []
  | r :: _ => map fst r
  end.

(** [df[cols].values]: one row of numbers for each row of the table. *)
Definition df_values (df : DataFrame) (cols : list string) : outcome matrix :=
  mapM (fun r => mapM (fun k => c <- row_get r k ;; cell_float c) cols) df.

(** [np.sort] of a row: ascending, nan last. *)
Fixpoint sort_insert (x : float) (l : list float) : list float :=
  match l with
  | [] => [x]
  | y :: t =>
      if fisnan x then y :: sort_insert x t
      else if fisnan y || flt x y then x :: l
      else y :: sort_insert x t
  end.

Definition np_sort (l : list float) : list float :=
  fold_right sort_insert [] l.

(** [np.mean]: the sum over the count; the mean of an empty slice is nan. *)
Definition np_sum (l : list float) : float := fold_left fadd l (Fin 0).

Definition np_mean (l : list float) : float :=
  fdiv (np_sum l) (Fin (INR (length l))).

(** [values_sorted[:, -1] - np.mean(values_sorted[:, :-1], axis=1)];
    indexing a column of an array without columns is an IndexError. *)
Definition add_difficulty (df : DataFrame) : outcome DataFrame :=
  let value_cols := filter (String.prefix "item_value_") (df_columns df) in
  values <- df_values df value_cols ;;
  let values_sorted := map np_sort values in
  if (length value_cols =? 0)%nat then Raised IndexError
  else
    let difficulty :=
      map (fun v => fsub (last v NaN) (np_mean (removelast v)))
          values_sorted in
    df_set_col df "difficulty" (map Float difficulty).

(** [values[:, 0] - np.mean(values[:, 1:], axis=1)] *)
Definition add_left_minus_mean_others (df : DataFrame) : outcome DataFrame :=
  let value_cols := filter (String.prefix "item_value_") (df_columns df) in
  values <- df_values df value_cols ;;
  if (length value_cols =? 0)%nat then Raised IndexError
  else
    let left_minus_mean_others :=
      map (fun v => fsub (hd NaN v) (np_mean (tl v))) values in
    df_set_col df "left_minus_mean_others"
               (map Float left_minus_mean_others).

(** [gaze[:, 0] - np.mean(gaze[:, 1:], axis=1)] *)
Definition add_left_gaze_advantage (df : DataFrame) : outcome DataFrame :=
  let gaze_cols := filter (String.prefix "gaze_") (df_columns df) in
  gaze <- df_values df gaze_cols ;;
  if (length gaze_cols =? 0)%nat then Raised IndexError
  else
    let left_gaze_advantage :=
      map (fun v => fsub (hd NaN v) (np_mean (tl v))) gaze in
    df_set_col df "left_gaze_advantage" (map Float left_gaze_advantage).

(** [values[:, 0] - np.mean(values[:, 1:])]: the mean has no axis, it runs
    over the other items of every row. *)
Definition add_left_relative_value (df : DataFrame) : outcome DataFrame :=
  let value_cols := filter (String.prefix "item_value_") (df_columns df) in
  values <- df_values df value_cols ;;
  if (length value_cols =? 0)%nat then Raised IndexError
  else
    let mean_others := np_mean (concat (map (@tl float) values)) in
    let relative_value_left :=
      map (fun v => fsub (hd NaN v) mean_others) values in
    df_set_col df "left_relative_value" (map Float relative_value_left).

(** ** The evidence rates as the specification words them

    [spec_A] is the attention-weighted value of item [j]; [spec_max_others]
    says that [m] is the greatest weighted value among the items other than
    [i]; [spec_rate] is the logistic transform. *)

Definition spec_A (gamma : R) (values gaze : list R) (j : nat) : R :=
  nth j gaze 0 * nth j values 0 + (1 - nth j gaze 0) * gamma * nth j values 0.

Definition spec_max_others (a : nat -> R) (n i : nat) (m : R) : Prop :=
  (exists j, (j < n)%nat /\ j <> i /\ a j = m) /\
  (forall j, (j < n)%nat -> j <> i -> a j <= m).

Definition spec_rate (v tau r_star : R) : R := v / (1 + exp (- tau * r_star)).

(** ** make_R on finite inputs, as functions on real numbers

    What [make_R] computes when every input is finite; [make_R_finite]
    proves the agreement. *)

Definition weighted (gamma : R) (values gaze : list R) : list R :=
  zip_with Rplus
           (zip_with Rmult gaze values)
           (zip_with Rmult (map (fun g => (1 + - g) * gamma) gaze) values).

Definition max_others (A : list R) (n i : nat) : R :=
  match map (fun j => nth j A 0) (others n i) with
  | [] => 0
  | x :: t => fold_left Rmax t x
  end.

Definition rates (v tau gamma : R) (values gaze : list R) : list R :=
  let A := weighted gamma values gaze in
  let n := length values in
  map (fun i => v / (1 + exp (- tau * (nth i A 0 + - max_others A n i))))
      (seq 0 n).

(** ** The observed trials of a subject, as the specification words them

    [own_trials] keeps the rows of the observed table whose subject equals
    [subject]; [own_rts] reads their rt. *)

Definition own_trials (d : DataFrame) (subject : cell) : list row :=
  filter (fun r => match row_lookup r "subject" with
                   | Some c => cell_eqb c subject
                   | None => false
                   end) d.

Definition own_rts (d : DataFrame) (subject : cell) : outcome (list float) :=
  mapM (fun r => c <- row_get r "rt" ;; cell_float c) (own_trials d subject).

(** The two ways in which the lookup of an estimate fails: the ValueError
    of storing an empty selection in the parameter array, and the KeyError
    of a label that the table does not have. *)
Definition lookup_failure {A} (o : outcome A) : Prop :=
  o = Raised ValueError \/ o = Raised KeyError.

(** An rt that may be emitted: finite and not negative; a row whose rt is
    such a number; a cell that holds a non-negative finite number. *)
Definition rt_valid (rt : float) : Prop :=
  exists x, rt = Fin x /\ 0 <= x.

Definition row_rt_valid (r : row) : Prop :=
  exists x, row_lookup r "rt" = Some (Float (Fin x)) /\ 0 <= x.

Definition cell_nonneg (c : cell) : Prop :=
  match c with
  | Int z => (0 <= z)%Z
  | Float (Fin x) => 0 <= x
  | _ => False
  end.

(** A time that the race loop rejects: negative or not finite. *)
Definition rejected (x : float) : bool :=
  flt x (Fin 0) || negb (fisfinite x).

(** ** Concrete random sources

    Instances of the samplers, used to run the simulator on examples:
    [uniform_low] answers the lower end of the range, [choice_first] the
    first item, [invgauss_const x] the time [x] whatever its arguments,
    [invgauss_mean] the mean it is given, and [invgauss_degenerate] nan for
    a non-finite mean and 1 otherwise.  The generator state counts the
    draws. *)

Definition uniform_low (low high : float) (g : nat) : float * nat :=
  (low, S g).

Definition choice_first (n : nat) (g : nat) : nat * nat := (0%nat, S g).

Definition invgauss_const (x : float) (mean scale : float) (g : nat)
  : float * nat := (x, S g).

(** A sampler that answers its own mean argument: its draws show which
    arguments it was called with. *)
Definition invgauss_mean (mean scale : float) (g : nat) : float * nat :=
  (mean, S g).

Definition invgauss_degenerate (mean scale : float) (g : nat) : float * nat :=
  (if fisfinite mean then Fin 1 else NaN, S g).

(** ** A small fitted model

    Two subjects; subject 1 has two observed trials (rt 2 and 4), subject 2
    has one (rt 7).  The parameter v depends on the column [condition]. *)

Definition observed (subject trial : Z) (rt : R) (condition : string) : row :=
  [("subject", Int subject); ("trial", Int trial); ("rt", Float (Fin rt));
   ("choice", Int 0); ("condition", Str condition);
   ("item_value_0", Float (Fin 5)); ("gaze_0", Float (Fin (4/5)));
   ("item_value_1", Float (Fin 3)); ("gaze_1", Float (Fin (1/5)))]%string.

Definition estimate (subject : Z) (condition : string) (v : R) : row :=
  [("subject", Int subject); ("condition", Str condition);
   ("v", Float (Fin v)); ("gamma", Float (Fin (1/5)));
   ("s", Float (Fin (1/5))); ("tau", Float (Fin (1/2)));
   ("t0", Float (Fin 300))]%string.

Definition example_model : model :=
  {| data := [observed 1 0 2 "A"; observed 1 1 4 "A"; observed 2 0 7 "A"];
     estimates := [estimate 1 "A" 1; estimate 2 "A" 2];
     depends_on := [("v", Some "condition")]%string;
     n_items := 2 |}.

(** The same model with a trial in condition B, for which subject 1 has
    no estimate. *)
Definition unmatched_model : model :=
  {| data := [observed 1 0 2 "B"];
     estimates := [estimate 1 "A" 1];
     depends_on := [("v", Some "condition")]%string;
     n_items := 2 |}.

(** A model with every estimate in place and a single item. *)
Definition one_item_model : model :=
  {| data := [observed 1 0 2 "A"];
     estimates := [estimate 1 "A" 1];
     depends_on := [("v", Some "condition")]%string;
     n_items := 1 |}.

(** The table that [predict] builds from [example_model] with two repeats
    when every trial takes the error branch, its rt is the lower end of the
    error range and its choice the first item. *)
Definition example_table : DataFrame :=
  [pred_row (observed 1 0 2 "A") (Idx 0) (Fin 2) 0;
   pred_row (observed 1 0 2 "A") (Idx 0) (Fin 2) 1;
   pred_row (observed 1 1 4 "A") (Idx 0) (Fin 2) 0;
   pred_row (observed 1 1 4 "A") (Idx 0) (Fin 2) 1;
   pred_row (observed 2 0 7 "A") (Idx 0) (Fin 7) 0;
   pred_row (observed 2 0 7 "A") (Idx 0) (Fin 7) 1].

(** A model whose only trial belongs to subject 3, who has no estimate,
    and one in which subject 1 has a trial with a missing rt. *)
Definition unknown_subject_model : model :=
  {| data := [observed 3 0 2 "A"];
     estimates := [estimate 1 "A" 1; estimate 2 "A" 2];
     depends_on := [];
     n_items := 2 |}.

Definition missing_rt_row : row :=
  [("subject", Int 1); ("trial", Int 1); ("rt", Float NaN);
   ("choice", Float NaN); ("condition", Str "A");
   ("item_value_0", Float (Fin 5)); ("gaze_0", Float (Fin (4/5)));
   ("item_value_1", Float (Fin 3)); ("gaze_1", Float (Fin (1/5)))]%string.

Definition missing_rt_model : model :=
  {| data := [observed 1 0 2 "A"; missing_rt_row];
     estimates := [estimate 1 "A" 1];
     depends_on := [("v", Some "condition")]%string;
     n_items := 2 |}.

(** Small tables for the derived columns: two trials with the same left
    value, a table with one item column, a table with none. *)
Definition same_left_table : DataFrame :=
  [[("subject", Int 1); ("item_value_0", Float (Fin 5));
    ("item_value_1", Float (Fin 3))];
   [("subject", Int 1); ("item_value_0", Float (Fin 5));
    ("item_value_1", Float (Fin 1))]]%string.

(** [same_left_table] with the column left_relative_value: in both rows
    5 minus the mean of 3 and 1. *)
Definition same_left_relative : DataFrame :=
  [[("subject", Int 1); ("item_value_0", Float (Fin 5));
    ("item_value_1", Float (Fin 3));
    ("left_relative_value", Float (fsub (Fin 5) (np_mean [Fin 3; Fin 1])))];
   [("subject", Int 1); ("item_value_0", Float (Fin 5));
    ("item_value_1", Float (Fin 1));
    ("left_relative_value", Float (fsub (Fin 5) (np_mean [Fin 3; Fin 1])))]
  ]%string.

Definition one_value_table : DataFrame :=
  [[("subject", Int 1); ("item_value_0", Float (Fin 5))];
   [("subject", Int 2); ("item_value_0", Float (Fin 3))]]%string.

Definition no_value_table : DataFrame :=
  [[("subject", Int 1); ("rt", Float (Fin 2))]]%string.

(** * Properties *)

(** ** Comparisons and float arithmetic on finite values *)

Lemma Rltb_true (a b : R) : a < b -> Rltb a b = true.
Proof. intros H. unfold Rltb. destruct (Rlt_dec a b); [reflexivity | contradiction]. Qed.

Lemma Rltb_false (a b : R) : b <= a -> Rltb a b = false.
Proof. intros H. unfold Rltb. destruct (Rlt_dec a b); [lra | reflexivity]. Qed.

Lemma Rltb_lt (a b : R) : Rltb a b = true -> a < b.
Proof. unfold Rltb. destruct (Rlt_dec a b); [trivial | discriminate]. Qed.

Lemma Rltb_ge (a b : R) : Rltb a b = false -> b <= a.
Proof. unfold Rltb. destruct (Rlt_dec a b); [discriminate | lra]. Qed.

Lemma Reqb_true (a b : R) : a = b -> Reqb a b = true.
Proof. intros H. unfold Reqb. destruct (Req_EM_T a b); [reflexivity | contradiction]. Qed.

Lemma Reqb_false (a b : R) : a <> b -> Reqb a b = false.
Proof. intros H. unfold Reqb. destruct (Req_EM_T a b); [contradiction | reflexivity]. Qed.

Lemma fmax2_Fin (x y : R) : fmax2 (Fin x) (Fin y) = Fin (Rmax x y).
Proof.
  unfold fmax2, Rmax; simpl. unfold Rltb.
  destruct (Rlt_dec x y), (Rle_dec x y);
    try reflexivity; try lra; try (f_equal; lra).
Qed.

Lemma fmin2_Fin (x y : R) : fmin2 (Fin x) (Fin y) = Fin (Rmin x y).
Proof.
  unfold fmin2, Rmin; simpl. unfold Rltb.
  destruct (Rlt_dec y x), (Rle_dec x y);
    try reflexivity; try lra; try (f_equal; lra).
Qed.

Lemma fold_fmax2_Fin (t : list R) (x : R) :
  fold_left fmax2 (map Fin t) (Fin x) = Fin (fold_left Rmax t x).
Proof.
  revert x. induction t as [|y t IH]; intros x; simpl; [reflexivity|].
  rewrite fmax2_Fin. apply IH.
Qed.

Lemma fold_Rmax_ge_init (t : list R) (x : R) : x <= fold_left Rmax t x.
Proof.
  revert x. induction t as [|y t IH]; intros x; simpl; [lra|].
  eapply Rle_trans; [apply (Rmax_l x y) | apply IH].
Qed.

Lemma fold_Rmax_upper (t : list R) (x y : R) :
  In y (x :: t) -> y <= fold_left Rmax t x.
Proof.
  revert x. induction t as [|z t IH]; intros x H; simpl in *.
  - destruct H as [->|[]]. lra.
  - destruct H as [->|[->|H]].
    + eapply Rle_trans; [apply (Rmax_l y z) | apply fold_Rmax_ge_init].
    + eapply Rle_trans; [apply (Rmax_r x y) | apply fold_Rmax_ge_init].
    + apply IH. right. exact H.
Qed.

Lemma fold_Rmax_In (t : list R) (x : R) : In (fold_left Rmax t x) (x :: t).
Proof.
  revert x. induction t as [|z t IH]; intros x; simpl; [left; reflexivity|].
  destruct (IH (Rmax x z)) as [H|H].
  - unfold Rmax in H at 1. destruct (Rle_dec x z).
    + right; left. exact H.
    + left. exact H.
  - right; right. exact H.
Qed.

(** ** Lists and loops *)

Lemma bind_Returned {A B} (a : A) (k : A -> outcome B) :
  bind (Returned a) k = k a.
Proof. reflexivity. Qed.

Lemma mapM_map {A B} (f : A -> outcome B) (h : A -> B) (l : list A) :
  (forall x, In x l -> f x = Returned (h x)) ->
  mapM f l = Returned (map h l).
Proof.
  induction l as [|a l IH]; intros H; simpl; [reflexivity|].
  rewrite (H a (or_introl eq_refl)). simpl.
  rewrite IH by (intros x Hx; apply H; right; exact Hx).
  reflexivity.
Qed.

Lemma zip_with_length {A B C} (f : A -> B -> C) (l : list A) (m : list B) :
  length l = length m -> length (zip_with f l m) = length l.
Proof.
  revert m. induction l as [|a l IH]; intros [|b m] H; simpl in *;
    try reflexivity; try discriminate.
  f_equal. apply IH. congruence.
Qed.

Lemma zip_with_nth {A B C} (f : A -> B -> C) (l : list A) (m : list B)
      (i : nat) (da : A) (db : B) (dc : C) :
  length l = length m -> (i < length l)%nat ->
  nth i (zip_with f l m) dc = f (nth i l da) (nth i m db).
Proof.
  revert m i. induction l as [|a l IH]; intros [|b m] i H Hi; simpl in *;
    try lia; try discriminate.
  destruct i as [|i]; [reflexivity|].
  apply IH; [congruence | lia].
Qed.

Lemma zip_with_map_Fin (f : float -> float -> float) (fr : R -> R -> R)
      (l m : list R) :
  (forall x y, f (Fin x) (Fin y) = Fin (fr x y)) ->
  zip_with f (map Fin l) (map Fin m) = map Fin (zip_with fr l m).
Proof.
  intros Hf. revert m. induction l as [|a l IH]; intros [|b m]; simpl;
    try reflexivity.
  rewrite Hf, IH. reflexivity.
Qed.

Lemma np_binop_Fin (f : float -> float -> float) (fr : R -> R -> R)
      (l m : list R) :
  (forall x y, f (Fin x) (Fin y) = Fin (fr x y)) ->
  length l = length m ->
  np_binop f (map Fin l) (map Fin m) = Returned (map Fin (zip_with fr l m)).
Proof.
  intros Hf Hlen. unfold np_binop.
  rewrite !length_map, Hlen, Nat.eqb_refl.
  rewrite (zip_with_map_Fin f fr) by exact Hf. reflexivity.
Qed.

Lemma np_get_Fin (A : list R) (i : nat) :
  (i < length A)%nat -> np_get (map Fin A) i = Returned (Fin (nth i A 0)).
Proof.
  intros Hi. unfold np_get.
  rewrite nth_error_map, (nth_error_nth' A 0 Hi). reflexivity.
Qed.

Lemma others_spec (n i j : nat) :
  In j (others n i) <-> (j < n)%nat /\ j <> i.
Proof.
  unfold others. rewrite filter_In, in_seq, negb_true_iff, Nat.eqb_neq. lia.
Qed.

Lemma others_nonempty (n i : nat) : (2 <= n)%nat -> others n i <> [].
Proof.
  intros Hn Hnil.
  assert (H : In (if (i =? 0)%nat then 1%nat else 0%nat) (others n i)).
  { apply others_spec. destruct (Nat.eqb_spec i 0); lia. }
  rewrite Hnil in H. exact H.
Qed.

Lemma np_take_Fin (A : list R) (idx : list nat) :
  (forall j, In j idx -> (j < length A)%nat) ->
  np_take (map Fin A) idx = Returned (map Fin (map (fun j => nth j A 0) idx)).
Proof.
  intros H. unfold np_take. rewrite map_map.
  apply mapM_map. intros j Hj. apply np_get_Fin, H, Hj.
Qed.

Lemma weighted_length (gamma : R) (values gaze : list R) :
  length gaze = length values ->
  length (weighted gamma values gaze) = length values.
Proof.
  intros H. unfold weighted.
  rewrite zip_with_length; rewrite !zip_with_length;
    rewrite ?length_map; congruence.
Qed.

Lemma weighted_nth (gamma : R) (values gaze : list R) (j : nat) :
  length gaze = length values -> (j < length values)%nat ->
  nth j (weighted gamma values gaze) 0 = spec_A gamma values gaze j.
Proof.
  intros H Hj. unfold weighted, spec_A.
  rewrite (zip_with_nth Rplus _ _ j 0 0 0);
    [| rewrite !zip_with_length; rewrite ?length_map; congruence
     | rewrite zip_with_length; lia ].
  rewrite (zip_with_nth Rmult gaze values j 0 0 0) by lia.
  rewrite (zip_with_nth Rmult _ values j 0 0 0);
    [| rewrite length_map; exact H | rewrite length_map; lia ].
  rewrite (nth_indep (map _ gaze) 0 ((fun g => (1 + - g) * gamma) 0))
    by (rewrite length_map; lia).
  rewrite (map_nth (fun g => (1 + - g) * gamma) gaze 0 j). ring.
Qed.

(** ** make_R *)

Lemma np_max_Fin (l : list R) :
  l <> [] ->
  np_max (map Fin l) =
  Returned (Fin (match l with [] => 0 | x :: t => fold_left Rmax t x end)).
Proof.
  destruct l as [|x t]; intros H; [contradiction|].
  simpl. rewrite fold_fmax2_Fin. reflexivity.
Qed.

Lemma rate_Fin (v tau r : R) :
  fdiv (Fin v) (fadd (Fin 1) (fexp (fmul (fneg (Fin tau)) (Fin r)))) =
  Fin (v / (1 + exp (- tau * r))).
Proof.
  simpl. rewrite Reqb_false; [reflexivity|].
  pose proof (exp_pos (- tau * r)). lra.
Qed.

Lemma make_R_finite (v tau gamma : R) (values gaze : list R) :
  length gaze = length values -> (2 <= length values)%nat ->
  make_R (Fin v) (Fin tau) (Fin gamma) (map Fin values) (map Fin gaze) =
  Returned (map Fin (rates v tau gamma values gaze)).
Proof.
  intros Hlen Hn. unfold make_R.
  rewrite (np_binop_Fin fmul Rmult) by (auto; reflexivity). rewrite bind_Returned.
  replace (map (fun g => fmul (fsub (Fin 1) g) (Fin gamma)) (map Fin gaze))
    with (map Fin (map (fun g => (1 + - g) * gamma) gaze))
    by (rewrite !map_map; reflexivity).
  rewrite (np_binop_Fin fmul Rmult)
    by (rewrite ?length_map; auto; reflexivity).
  rewrite bind_Returned.
  rewrite (np_binop_Fin fadd Rplus);
    [| reflexivity
     | rewrite !zip_with_length; rewrite ?length_map; congruence ].
  rewrite bind_Returned. fold (weighted gamma values gaze).
  set (A := weighted gamma values gaze).
  assert (HA : length A = length values) by (apply weighted_length; exact Hlen).
  rewrite length_map.
  rewrite (mapM_map _ (fun i => Fin (nth i A 0 + - max_others A (length values) i))).
  - rewrite bind_Returned. unfold rates. fold A. rewrite !map_map. f_equal.
    apply map_ext. intros i. apply rate_Fin.
  - intros i Hi. apply in_seq in Hi.
    rewrite np_get_Fin by lia. rewrite bind_Returned.
    rewrite np_take_Fin
      by (intros j Hj; apply others_spec in Hj; lia).
    rewrite bind_Returned. rewrite np_max_Fin.
    + reflexivity.
    + intros Hnil. apply map_eq_nil in Hnil.
      exact (others_nonempty _ _ Hn Hnil).
Qed.

Lemma max_others_spec (A : list R) (n i : nat) :
  (2 <= n)%nat ->
  spec_max_others (fun j => nth j A 0) n i (max_others A n i).
Proof.
  intros Hn. unfold max_others, spec_max_others.
  pose proof (others_nonempty n i Hn) as Hne.
  destruct (map (fun j => nth j A 0) (others n i)) as [|x t] eqn:E.
  - apply map_eq_nil in E. contradiction.
  - split.
    + pose proof (fold_Rmax_In t x) as Hin. rewrite <- E in Hin.
      apply in_map_iff in Hin. destruct Hin as [j [Hj Hin]].
      apply others_spec in Hin. exists j. tauto.
    + intros j Hj Hji. apply fold_Rmax_upper. rewrite <- E.
      apply in_map_iff. exists j. split; [reflexivity|].
      apply others_spec. tauto.
Qed.

(** C1: for value and gaze vectors of the same length n >= 2 and finite
    v, gamma, tau, [make_R] returns a vector R of length n such that, for
    each item i, R_i = v / (1 + exp (- tau * (A_i - m))), where
    A_j = gaze_j * values_j + (1 - gaze_j) * gamma * values_j and m is the
    maximum of A_j over the items j other than i. *)
Theorem make_R_formula (v tau gamma : R) (values gaze : list R) :
  length gaze = length values -> (2 <= length values)%nat ->
  exists Rs : list R,
    make_R (Fin v) (Fin tau) (Fin gamma) (map Fin values) (map Fin gaze) =
    Returned (map Fin Rs) /\
    length Rs = length values /\
    forall i, (i < length values)%nat ->
      exists m,
        spec_max_others (spec_A gamma values gaze) (length values) i m /\
        nth i Rs 0 = spec_rate v tau (spec_A gamma values gaze i - m).
Proof.
  intros Hlen Hn. exists (rates v tau gamma values gaze).
  split; [apply make_R_finite; assumption|].
  split; [unfold rates; rewrite length_map, length_seq; reflexivity|].
  intros i Hi.
  set (A := weighted gamma values gaze).
  exists (max_others A (length values) i). split.
  - destruct (max_others_spec A (length values) i Hn) as [[j [Hj [Hji Hm]]] Hub].
    split.
    + exists j. repeat split; try assumption.
      rewrite <- Hm. symmetry. apply weighted_nth; assumption.
    + intros k Hk Hki. rewrite <- weighted_nth by assumption.
      apply Hub; assumption.
  - unfold rates. fold A.
    rewrite (nth_indep _ 0
               ((fun i => v / (1 + exp (- tau * (nth i A 0 + - max_others A (length values) i)))) 0%nat))
      by (rewrite length_map, length_seq; exact Hi).
    rewrite (map_nth (fun i => v / (1 + exp (- tau * (nth i A 0 + - max_others A (length values) i))))).
    rewrite seq_nth by exact Hi. simpl.
    unfold spec_rate, A. rewrite weighted_nth by assumption.
    reflexivity.
Qed.

Lemma make_R_formula_witness :
  exists Rs : list R,
    make_R (Fin 1) (Fin (1/2)) (Fin (1/5)) (map Fin [5; 3]) (map Fin [4/5; 1/5]) =
    Returned (map Fin Rs) /\
    length Rs = 2%nat /\
    forall i, (i < 2)%nat ->
      exists m,
        spec_max_others (spec_A (1/5) [5; 3] [4/5; 1/5]) 2 i m /\
        nth i Rs 0 = spec_rate 1 (1/2) (spec_A (1/5) [5; 3] [4/5; 1/5] i - m).
Proof.
  apply (make_R_formula 1 (1/2) (1/5) [5; 3] [4/5; 1/5]); simpl; lia.
Defined.

(** C9: for two items of equal value and equal gaze, the relative evidence
    of each item is 0 and [make_R] returns v/2 for both, whatever the
    finite v, gamma and tau. *)
Theorem make_R_symmetric (v tau gamma x g : R) :
  (forall i m, (i < 2)%nat ->
     spec_max_others (spec_A gamma [x; x] [g; g]) 2 i m ->
     spec_A gamma [x; x] [g; g] i - m = 0) /\
  make_R (Fin v) (Fin tau) (Fin gamma) [Fin x; Fin x] [Fin g; Fin g] =
  Returned [Fin (v / 2); Fin (v / 2)].
Proof.
  split.
  - intros i m Hi [[j [Hj [Hji Hm]]] _]. subst m.
    assert (Hsame : forall k, (k < 2)%nat ->
              spec_A gamma [x; x] [g; g] k = g * x + (1 - g) * gamma * x).
    { intros k Hk. unfold spec_A.
      destruct k as [|[|k]]; simpl; try reflexivity; lia. }
    rewrite (Hsame i Hi), (Hsame j Hj). ring.
  - change [Fin x; Fin x] with (map Fin [x; x]).
    change [Fin g; Fin g] with (map Fin [g; g]).
    rewrite make_R_finite by (simpl; lia).
    unfold rates, weighted, max_others, others. simpl.
    assert (E : forall a : R, v / (1 + exp (- tau * (a + - a))) = v / 2).
    { intros a. replace (- tau * (a + - a)) with 0 by ring.
      rewrite exp_0. replace (1 + 1) with 2 by lra. reflexivity. }
    rewrite !E. reflexivity.
Qed.

(** ** The race loop *)

Section RaceProperties.

Variable rng : Type.
Variable random_uniform : float -> float -> rng -> float * rng.
Variable random_choice : nat -> rng -> nat * rng.
Variable invgauss_rvs : float -> float -> rng -> float * rng.

Let sample := sample_FPTs rng invgauss_rvs.
Let body := race_body rng invgauss_rvs.
Let loop := race_loop rng invgauss_rvs.
Let trial := simulate_trial rng random_uniform random_choice invgauss_rvs.

Lemma sample_FPTs_length (boundary s : float) (R : list float) (g : rng) :
  length (fst (sample boundary s R g)) = length R.
Proof.
  unfold sample.
  revert g. induction R as [|r R IH]; intros g; simpl; [reflexivity|].
  destruct (invgauss_rvs _ _ g) as [x g1].
  specialize (IH g1).
  destruct (sample_FPTs rng invgauss_rvs boundary s R g1) as [xs g2].
  simpl in *. f_equal. exact IH.
Qed.

(** The time drawn for the i-th rate of a list: the sampler's answer to
    the mean and the scale computed from that rate, in the state left by
    the draws for the rates before it. *)
Lemma sample_FPTs_arguments (boundary s : float) (R : list float)
        (g : rng) (i : nat) :
  (i < length R)%nat ->
  let lambda := fmul (fdiv boundary s) (fdiv boundary s) in
  let mu := fdiv boundary (nth i R NaN) in
  exists gi : rng,
    gi = snd (sample boundary s (firstn i R) g) /\
    nth i (fst (sample boundary s R g)) NaN =
    fst (invgauss_rvs (fdiv mu lambda) lambda gi).
Proof.
  unfold sample.
  revert g i. induction R as [|r R IH]; intros g i Hi; simpl in Hi; [lia|].
  destruct i as [|i].
  - exists g. split; [reflexivity|]. simpl.
    destruct (invgauss_rvs _ _ g) as [x g1].
    destruct (sample_FPTs rng invgauss_rvs boundary s R g1) as [xs g2].
    reflexivity.
  - simpl. destruct (invgauss_rvs _ _ g) as [x g1].
    destruct (IH g1 i ltac:(lia)) as [gi [Hgi Hnth]].
    exists gi. split.
    + rewrite Hgi.
      destruct (sample_FPTs rng invgauss_rvs boundary s (firstn i R) g1).
      reflexivity.
    + destruct (sample_FPTs rng invgauss_rvs boundary s R g1) as [xs g2].
      simpl in *. exact Hnth.
Qed.

Lemma race_loop_done (fuel : nat) (p : parameters) (values gaze : list float)
      (boundary : float) (c : choice_val) (rt : float) (g : rng) :
  fisnan rt = false ->
  loop fuel p values gaze boundary c rt g = Returned (c, rt, g).
Proof.
  intros H. unfold loop. destruct fuel; simpl; rewrite H; reflexivity.
Qed.

Lemma race_loop_stalls (p : parameters) (values gaze : list float)
      (boundary : float) :
  (forall g, exists g', body p values gaze boundary g =
                        Returned (ChoiceNaN, NaN, g')) ->
  forall fuel g, loop fuel p values gaze boundary ChoiceNaN NaN g = OutOfFuel.
Proof.
  intros H fuel. unfold loop, body in *.
  induction fuel as [|fuel IH]; intros g; simpl; [reflexivity|].
  destruct (H g) as [g' Hg]. rewrite Hg. simpl. apply IH.
Qed.

Lemma fmin2_choice (a b : float) : fmin2 a b = a \/ fmin2 a b = b.
Proof.
  unfold fmin2. destruct (fisnan a); [left; reflexivity|].
  destruct (fisnan b); [right; reflexivity|].
  destruct (flt b a); [right | left]; reflexivity.
Qed.

Lemma fold_fmin2_In (t : list float) (x : float) :
  In (fold_left fmin2 t x) (x :: t).
Proof.
  revert x. induction t as [|y t IH]; intros x; simpl; [left; reflexivity|].
  destruct (IH (fmin2 x y)) as [H|H].
  - destruct (fmin2_choice x y) as [E|E].
    + left. transitivity (fmin2 x y); [symmetry; exact E | exact H].
    + right; left. transitivity (fmin2 x y); [symmetry; exact E | exact H].
  - right; right. exact H.
Qed.

(** The draws of one pass over rates taken from [Rs], started in a state
    of [Inv]: when every draw made with the arguments of a rate of [Rs] in
    a state of [Inv] is rejected and leads to a state of [Inv], every time
    of the pass is rejected and the pass ends in a state of [Inv]. *)
Lemma sample_FPTs_rejected (Inv : rng -> Prop) (boundary s : float)
      (Rs : list float) :
  (forall r g0, In r Rs -> Inv g0 ->
     rejected (fst (invgauss_rvs
                      (fdiv (fdiv boundary r)
                            (fmul (fdiv boundary s) (fdiv boundary s)))
                      (fmul (fdiv boundary s) (fdiv boundary s)) g0)) = true /\
     Inv (snd (invgauss_rvs
                 (fdiv (fdiv boundary r)
                       (fmul (fdiv boundary s) (fdiv boundary s)))
                 (fmul (fdiv boundary s) (fdiv boundary s)) g0))) ->
  forall rs, incl rs Rs -> forall g, Inv g ->
    (forall x, In x (fst (sample boundary s rs g)) -> rejected x = true) /\
    Inv (snd (sample boundary s rs g)).
Proof.
  intros Hdraw rs. unfold sample.
  induction rs as [|r rs IH]; intros Hincl g Hg; simpl.
  - split; [intros x [] | exact Hg].
  - destruct (Hdraw r g (Hincl r (or_introl eq_refl)) Hg) as [Hrej Hinv].
    destruct (invgauss_rvs _ _ g) as [y g1]. simpl in Hrej, Hinv.
    destruct (IH (fun x Hx => Hincl x (or_intror Hx)) g1 Hinv) as [Hall Hend].
    destruct (sample_FPTs rng invgauss_rvs boundary s rs g1) as [xs g2].
    simpl in *. split; [|exact Hend].
    intros x [<-|Hx]; [exact Hrej | apply Hall, Hx].
Qed.

Lemma race_loop_stalls_inv (Inv : rng -> Prop) (p : parameters)
      (values gaze : list float) (boundary : float) :
  (forall g, Inv g ->
     exists g', body p values gaze boundary g =
                Returned (ChoiceNaN, NaN, g') /\ Inv g') ->
  forall fuel g, Inv g ->
    loop fuel p values gaze boundary ChoiceNaN NaN g = OutOfFuel.
Proof.
  intros H fuel. unfold loop, body in *.
  induction fuel as [|fuel IH]; intros g Hg; simpl; [reflexivity|].
  destruct (H g Hg) as [g' [Hbody Hg']]. rewrite Hbody. simpl.
  apply IH. exact Hg'.
Qed.

(** C2 (amended): the resampling loop has no retry bound and no stall
    signal.  When the race branch is taken, [make_R] returns a rate for
    at least one item and every first-passage draw of the run is negative
    or not finite, [simulate_trial] does not return, however many
    iterations it is allowed.  The draws of the run are those made with
    the mean and the scale that the loop computes from a rate of [make_R],
    in a generator state that the run can reach: [Inv] holds after the
    first uniform draw and after every such draw. *)
Theorem race_unbounded (Inv : rng -> Prop) (v gamma s tau t0 : float)
        (values gaze : list float)
        (boundary error_weight : float) (error_range : float * float)
        (Rs : list float) (g : rng) :
  make_R v tau gamma values gaze = Returned Rs -> Rs <> [] ->
  flt (fst (random_uniform (Fin 0) (Fin 1) g)) error_weight = false ->
  Inv (snd (random_uniform (Fin 0) (Fin 1) g)) ->
  (forall r g0, In r Rs -> Inv g0 ->
     rejected (fst (invgauss_rvs
                      (fdiv (fdiv boundary r)
                            (fmul (fdiv boundary s) (fdiv boundary s)))
                      (fmul (fdiv boundary s) (fdiv boundary s)) g0)) = true /\
     Inv (snd (invgauss_rvs
                 (fdiv (fdiv boundary r)
                       (fmul (fdiv boundary s) (fdiv boundary s)))
                 (fmul (fdiv boundary s) (fdiv boundary s)) g0))) ->
  forall fuel,
    trial fuel (v, gamma, s, tau, t0) values gaze boundary error_weight
          error_range g = OutOfFuel.
Proof.
  intros HR Hne Hrace Hstart Hdraw fuel. unfold trial, simulate_trial.
  destruct (random_uniform (Fin 0) (Fin 1) g) as [u g1].
  simpl in Hrace, Hstart. rewrite Hrace.
  apply (race_loop_stalls_inv Inv (v, gamma, s, tau, t0) values gaze boundary);
    [|exact Hstart].
  intros g0 Hg0. unfold body, race_body. rewrite HR, bind_Returned.
  destruct (sample_FPTs_rejected Inv boundary s Rs Hdraw Rs
                                 (fun x Hx => Hx) g0 Hg0) as [Hall Hend].
  pose proof (sample_FPTs_length boundary s Rs g0) as Hlen.
  unfold sample in *.
  destruct (sample_FPTs rng invgauss_rvs boundary s Rs g0) as [FPTs g2].
  simpl in *. destruct FPTs as [|x t].
  - destruct Rs; [contradiction | discriminate].
  - simpl np_min. rewrite bind_Returned.
    pose proof (Hall _ (fold_fmin2_In t x)) as Hm. unfold rejected in Hm.
    rewrite Hm. exists g2. split; [reflexivity | exact Hend].
Qed.

Lemma simulate_trial_one_item (v gamma s tau t0 x gz : float)
      (boundary error_weight : float) (error_range : float * float)
      (fuel : nat) (g : rng) :
  trial fuel (v, gamma, s, tau, t0) [x] [gz] boundary error_weight
        error_range g =
  (let (u, g1) := random_uniform (Fin 0) (Fin 1) g in
   if flt u error_weight then
     let (rt, g2) := random_uniform (fst error_range) (snd error_range) g1 in
     let (choice, g3) := random_choice 1 g2 in
     Returned (Idx choice, rt, g3)
   else match fuel with
        | O => OutOfFuel
        | S _ => Raised ValueError
        end).
Proof.
  unfold trial, simulate_trial.
  destruct (random_uniform (Fin 0) (Fin 1) g) as [u g1].
  destruct (flt u error_weight); [reflexivity|].
  destruct fuel; reflexivity.
Qed.

(** C10: with a single item, [make_R] raises ValueError (the maximum of
    an empty array), so the race branch of [simulate_trial] raises it at
    its first iteration and never returns; the error branch returns a
    choice and an rt. *)
Theorem single_item (v gamma s tau t0 x gz : float)
        (boundary error_weight : float) (error_range : float * float)
        (fuel : nat) (g : rng) :
  make_R v tau gamma [x] [gz] = Raised ValueError /\
  trial fuel (v, gamma, s, tau, t0) [x] [gz] boundary error_weight
        error_range g =
  (let (u, g1) := random_uniform (Fin 0) (Fin 1) g in
   if flt u error_weight then
     let (rt, g2) := random_uniform (fst error_range) (snd error_range) g1 in
     let (choice, g3) := random_choice 1 g2 in
     Returned (Idx choice, rt, g3)
   else match fuel with
        | O => OutOfFuel
        | S _ => Raised ValueError
        end).
Proof.
  split; [reflexivity | apply simulate_trial_one_item].
Qed.

Lemma not_rejected_Fin (x : float) :
  rejected x = false -> exists m, x = Fin m /\ 0 <= m.
Proof.
  unfold rejected. destruct x as [m| | |]; simpl; try discriminate.
  rewrite orb_false_r. intros H. exists m. split; [reflexivity|].
  apply Rltb_ge. exact H.
Qed.

Lemma race_loop_returns (v gamma s tau : float) (t0 : R)
      (values gaze : list float) (boundary : float) :
  forall fuel g choice rt g',
    loop fuel (v, gamma, s, tau, Fin t0) values gaze boundary ChoiceNaN NaN g =
    Returned (choice, rt, g') ->
    exists (Rs FPTs : list float) (m : R) (c : nat) (g0 : rng),
      make_R v tau gamma values gaze = Returned Rs /\
      sample boundary s Rs g0 = (FPTs, g') /\
      np_min FPTs = Returned (Fin m) /\ 0 <= m /\
      np_argmin FPTs = Returned c /\
      choice = Idx c /\ rt = Fin (m + t0) /\ t0 <= m + t0.
Proof.
  unfold loop, sample.
  induction fuel as [|fuel IH]; intros g choice rt g' H; simpl in H;
    [discriminate|].
  unfold race_body in H.
  destruct (make_R v tau gamma values gaze) as [Rs| |] eqn:HR;
    simpl in H; try discriminate.
  destruct (sample_FPTs rng invgauss_rvs boundary s Rs g) as [FPTs g1] eqn:HS.
  destruct (np_min FPTs) as [x| |] eqn:Hmin; simpl in H; try discriminate.
  fold (rejected x) in H.
  destruct (rejected x) eqn:Hrej.
  - simpl in H. apply IH in H. exact H.
  - destruct (np_argmin FPTs) as [c| |] eqn:Harg; simpl in H;
      try discriminate.
    destruct (not_rejected_Fin x Hrej) as [m [-> Hm]].
    simpl fadd in H.
    pose proof (race_loop_done fuel (v, gamma, s, tau, Fin t0) values gaze
                               boundary (Idx c) (Fin (m + t0)) g1 eq_refl)
      as Hdone.
    unfold loop in Hdone. rewrite Hdone in H.
    injection H as <- <- <-.
    exists Rs, FPTs, m, c, g. repeat split; try assumption; try reflexivity.
    lra.
Qed.

(** [np.random.uniform] draws from the range it is given. *)
Hypothesis uniform_in_range :
  forall (low high : R) (g : rng), low <= high ->
    exists u, fst (random_uniform (Fin low) (Fin high) g) = Fin u /\
              low <= u <= high.

(** C3: with error_weight = 0 and a finite t0, whenever [simulate_trial]
    returns, it returns from the race: the last pass of the loop drew the
    times FPTs for the rates of [make_R], their minimum m is finite and
    non-negative, choice is the argmin of FPTs and rt = m + t0, which is
    finite and at least t0. *)
Theorem race_rt_valid (v gamma s tau : float) (t0 : R)
        (values gaze : list float) (boundary : float)
        (error_range : float * float) (fuel : nat) (g : rng)
        (choice : choice_val) (rt : float) (g' : rng) :
  trial fuel (v, gamma, s, tau, Fin t0) values gaze boundary (Fin 0)
        error_range g = Returned (choice, rt, g') ->
  exists (Rs FPTs : list float) (m : R) (c : nat) (g0 : rng),
    make_R v tau gamma values gaze = Returned Rs /\
    sample boundary s Rs g0 = (FPTs, g') /\
    np_min FPTs = Returned (Fin m) /\ 0 <= m /\
    np_argmin FPTs = Returned c /\
    choice = Idx c /\ rt = Fin (m + t0) /\ t0 <= m + t0.
Proof.
  unfold trial, simulate_trial. intros H.
  destruct (uniform_in_range 0 1 g ltac:(lra)) as [u [Hu Hrange]].
  destruct (random_uniform (Fin 0) (Fin 1) g) as [u' g1]. simpl in Hu.
  subst u'. simpl flt in H. rewrite Rltb_false in H by lra.
  apply (race_loop_returns v gamma s tau t0 values gaze boundary fuel g1).
  exact H.
Qed.

End RaceProperties.

(** ** Runs on concrete random sources *)

Ltac float_cmp :=
  repeat first
    [ rewrite Rltb_true by lra | rewrite Rltb_false by lra
    | rewrite Reqb_true by lra | rewrite Reqb_false by lra ].

Lemma uniform_low_in_range (low high : R) (g : nat) :
  low <= high ->
  exists u, fst (uniform_low (Fin low) (Fin high) g) = Fin u /\ low <= u <= high.
Proof. intros H. exists low. simpl. split; [reflexivity | lra]. Qed.

(** With v = 0 every rate is 0. *)
Lemma rates_v0 (tau gamma : R) (values gaze : list R) :
  rates 0 tau gamma values gaze = map (fun _ => 0) (seq 0 (length values)).
Proof.
  unfold rates. apply map_ext. intros i. unfold Rdiv. ring.
Qed.

(** A rate of 0 makes the mean of the sampler infinite, and the degenerate
    sampler answers nan: the body of the loop rejects the pass. *)
Lemma race_body_v0 (g : nat) :
  race_body nat invgauss_degenerate
            (Fin 0, Fin (1/2), Fin 1, Fin 1, Fin 0)
            (map Fin [1; 2]) (map Fin [1/2; 1/2]) (Fin 1) g =
  Returned (ChoiceNaN, NaN, S (S g)).
Proof.
  cbv beta iota delta [race_body].
  rewrite make_R_finite by (simpl; lia).
  rewrite rates_v0, bind_Returned. simpl.
  unfold invgauss_degenerate. simpl. unfold finf_times.
  float_cmp. simpl. float_cmp. simpl. reflexivity.
Qed.

(** With v = 0 every rate that the run samples from is 0. *)
Lemma rates_v0_In (tau gamma : R) (values gaze : list R) (r : float) :
  In r (map Fin (rates 0 tau gamma values gaze)) -> r = Fin 0.
Proof.
  rewrite rates_v0, map_map. intros H. apply in_map_iff in H.
  destruct H as [i [<- _]]. reflexivity.
Qed.

Lemma race_unbounded_witness :
  simulate_trial nat uniform_low choice_first invgauss_degenerate 1000
                 (Fin 0, Fin (1/2), Fin 1, Fin 1, Fin 0)
                 (map Fin [1; 2]) (map Fin [1/2; 1/2])
                 (Fin 1) (Fin 0) (Fin 0, Fin 5) 0%nat = OutOfFuel.
Proof.
  apply (race_unbounded nat uniform_low choice_first invgauss_degenerate
                        (fun g => (1 <= g)%nat)
                        (Fin 0) (Fin (1/2)) (Fin 1) (Fin 1) (Fin 0)
                        (map Fin [1; 2]) (map Fin [1/2; 1/2])
                        (Fin 1) (Fin 0) (Fin 0, Fin 5)
                        (map Fin (rates 0 1 (1/2) [1; 2] [1/2; 1/2]))
                        0%nat).
  - apply make_R_finite; simpl; lia.
  - unfold rates. simpl. discriminate.
  - simpl. apply Rltb_false. lra.
  - simpl. lia.
  - intros r g0 Hr Hg0. apply rates_v0_In in Hr. subst r.
    unfold invgauss_degenerate. simpl. unfold finf_times.
    float_cmp. simpl. float_cmp. simpl. split; [reflexivity | lia].
Defined.

(** C2, refuted on an input: with v = 0 and a sampler that answers nan to
    an infinite mean, no amount of fuel lets [simulate_trial] return or
    signal anything. *)
Lemma race_unbounded_counterexample :
  ~ exists fuel : nat,
      simulate_trial nat uniform_low choice_first invgauss_degenerate fuel
                     (Fin 0, Fin (1/2), Fin 1, Fin 1, Fin 0)
                     (map Fin [1; 2]) (map Fin [1/2; 1/2])
                     (Fin 1) (Fin 0) (Fin 0, Fin 5) 0%nat <> OutOfFuel.
Proof.
  intros [fuel H]. apply H. clear H.
  unfold simulate_trial, uniform_low. simpl flt.
  rewrite Rltb_false by lra.
  apply (race_loop_stalls nat invgauss_degenerate).
  intros g. exists (S (S g)). apply race_body_v0.
Qed.

Lemma race_rt_valid_run :
  simulate_trial nat uniform_low choice_first (invgauss_const (Fin 1)) 1
                 (Fin 1, Fin (1/5), Fin (1/5), Fin (1/2), Fin 300)
                 (map Fin [5; 3]) (map Fin [4/5; 1/5])
                 (Fin 1) (Fin 0) (Fin 0, Fin 5) 0%nat =
  Returned (Idx 0, Fin (1 + 300), 3%nat).
Proof.
  unfold simulate_trial, uniform_low. simpl flt.
  rewrite Rltb_false by lra.
  cbv beta iota delta [race_loop race_body fisnan].
  rewrite make_R_finite by (simpl; lia).
  rewrite bind_Returned. unfold rates. simpl.
  unfold fmin2. simpl. float_cmp. simpl. float_cmp. simpl. float_cmp.
  reflexivity.
Qed.

Lemma race_rt_valid_witness :
  exists (Rs FPTs : list float) (m : R) (c : nat) (g0 : nat),
    make_R (Fin 1) (Fin (1/2)) (Fin (1/5)) (map Fin [5; 3])
           (map Fin [4/5; 1/5]) = Returned Rs /\
    sample_FPTs nat (invgauss_const (Fin 1)) (Fin 1) (Fin (1/5)) Rs g0 =
    (FPTs, 3%nat) /\
    np_min FPTs = Returned (Fin m) /\ 0 <= m /\
    np_argmin FPTs = Returned c /\
    Idx 0 = Idx c /\ Fin (1 + 300) = Fin (m + 300) /\ 300 <= m + 300.
Proof.
  apply (race_rt_valid nat uniform_low choice_first (invgauss_const (Fin 1))
                       uniform_low_in_range
                       (Fin 1) (Fin (1/5)) (Fin (1/5)) (Fin (1/2)) 300
                       (map Fin [5; 3]) (map Fin [4/5; 1/5]) (Fin 1)
                       (Fin 0, Fin 5) 1%nat 0%nat (Idx 0) (Fin (1 + 300)) 3%nat).
  exact race_rt_valid_run.
Defined.

(** ** Rows and loops over tables *)

Lemma row_lookup_set_same (r : row) (k : string) (c : cell) :
  row_lookup (row_set r k c) k = Some c.
Proof.
  induction r as [|[k' c'] r IH]; simpl.
  - rewrite String.eqb_refl. reflexivity.
  - destruct (String.eqb k' k) eqn:E; simpl.
    + rewrite String.eqb_refl. reflexivity.
    + rewrite E. exact IH.
Qed.

Lemma row_lookup_set_other (r : row) (k k' : string) (c : cell) :
  k <> k' -> row_lookup (row_set r k c) k' = row_lookup r k'.
Proof.
  intros Hne. induction r as [|[k0 c0] r IH]; simpl.
  - destruct (String.eqb_spec k k'); [contradiction | reflexivity].
  - destruct (String.eqb_spec k0 k) as [->|Hk]; simpl.
    + destruct (String.eqb_spec k k'); [contradiction | reflexivity].
    + destruct (String.eqb_spec k0 k'); [reflexivity | exact IH].
Qed.

Lemma mapM_Forall2 {A B} (f : A -> outcome B) (l : list A) (bs : list B) :
  mapM f l = Returned bs -> Forall2 (fun a b => f a = Returned b) l bs.
Proof.
  revert bs. induction l as [|a l IH]; intros bs H; simpl in H.
  - injection H as <-. constructor.
  - destruct (f a) as [b| |] eqn:Hf; simpl in H; try discriminate.
    destruct (mapM f l) as [bs'| |]; simpl in H; try discriminate.
    injection H as <-. constructor; [exact Hf | apply IH; reflexivity].
Qed.

Lemma mapM_Raised {A B} (f : A -> outcome B) (l : list A) (e : exn) :
  mapM f l = Raised e -> exists a, In a l /\ f a = Raised e.
Proof.
  induction l as [|a l IH]; intros H; simpl in H; [discriminate|].
  destruct (f a) as [b| |] eqn:Hf; simpl in H; try discriminate.
  - destruct (mapM f l) as [bs| |]; simpl in H; try discriminate.
    destruct (IH H) as [a' [Hin Ha']]. exists a'. split; [right|]; assumption.
  - injection H as <-. exists a. split; [left; reflexivity | exact Hf].
Qed.

Lemma mapM_no_fuel {A B} (f : A -> outcome B) (l : list A) :
  (forall a, f a <> OutOfFuel) -> mapM f l <> OutOfFuel.
Proof.
  intros Hf. induction l as [|a l IH]; simpl; [discriminate|].
  specialize (Hf a). destruct (f a); simpl; try congruence.
  destruct (mapM f l); simpl; congruence.
Qed.

Section LoopProperties.

Variable rng : Type.

Lemma mapM_st_Forall2 {A B} (f : A -> rng -> outcome (B * rng))
      (l : list A) :
  forall g bs g',
    mapM_st rng f l g = Returned (bs, g') ->
    Forall2 (fun a b => exists g0 g1, f a g0 = Returned (b, g1)) l bs.
Proof.
  induction l as [|a l IH]; intros g bs g' H; simpl in H.
  - injection H as <- _. constructor.
  - destruct (f a g) as [[b g1]| |] eqn:Hf; simpl in H; try discriminate.
    destruct (mapM_st rng f l g1) as [[bs' g2]| |] eqn:Hl; simpl in H;
      try discriminate.
    injection H as <- _. constructor.
    + exists g, g1. exact Hf.
    + eapply IH. exact Hl.
Qed.

End LoopProperties.

Lemma Forall2_length_eq {A B} (P : A -> B -> Prop) (l : list A) (m : list B) :
  Forall2 P l m -> length l = length m.
Proof. induction 1; simpl; congruence. Qed.

Lemma Forall2_nth_error {A B} (P : A -> B -> Prop) (l : list A) (m : list B)
      (i : nat) (a : A) :
  Forall2 P l m -> nth_error l i = Some a ->
  exists b, nth_error m i = Some b /\ P a b.
Proof.
  intros H. revert i. induction H as [|x y l m Hxy H IH]; intros i Hi.
  - destruct i; discriminate.
  - destruct i as [|i]; simpl in *.
    + injection Hi as <-. exists y. split; [reflexivity | exact Hxy].
    + apply IH. exact Hi.
Qed.

Lemma nth_error_concat_uniform {A} (n : nat) (ls : list (list A)) (k i : nat)
      (l : list A) :
  Forall (fun l => length l = n) ls ->
  nth_error ls k = Some l -> (i < n)%nat ->
  nth_error (concat ls) (k * n + i) = nth_error l i.
Proof.
  intros Hall. revert k. induction Hall as [|x ls Hx Hall IH]; intros k Hk Hi.
  - destruct k; discriminate.
  - destruct k as [|k]; simpl in *.
    + injection Hk as ->. apply nth_error_app1. lia.
    + rewrite nth_error_app2 by lia.
      replace (n + k * n + i - length x)%nat with (k * n + i)%nat by lia.
      apply IH; assumption.
Qed.

Lemma length_concat_uniform {A} (n : nat) (ls : list (list A)) :
  Forall (fun l => length l = n) ls ->
  length (concat ls) = (length ls * n)%nat.
Proof.
  induction 1 as [|x ls Hx Hall IH]; simpl; [reflexivity|].
  rewrite length_app, IH, Hx. reflexivity.
Qed.

(** ** The error range of a subject *)

Ltac bind_inv H x E :=
  match type of H with
  | bind ?m _ = Returned _ =>
      destruct m as [x| |] eqn:E; cbn [bind] in H; try discriminate H
  end.

Lemma fold_fmin2_Fin (t : list R) (x : R) :
  fold_left fmin2 (map Fin t) (Fin x) = Fin (fold_left Rmin t x).
Proof.
  revert x. induction t as [|y t IH]; intros x; simpl; [reflexivity|].
  rewrite fmin2_Fin. apply IH.
Qed.

Lemma fold_Rmin_le_init (t : list R) (x : R) : fold_left Rmin t x <= x.
Proof.
  revert x. induction t as [|y t IH]; intros x; simpl; [lra|].
  eapply Rle_trans; [apply IH | apply Rmin_l].
Qed.

Lemma fold_Rmin_lower (t : list R) (x y : R) :
  In y (x :: t) -> fold_left Rmin t x <= y.
Proof.
  revert x. induction t as [|z t IH]; intros x H; simpl in *.
  - destruct H as [->|[]]. lra.
  - destruct H as [->|[->|H]].
    + eapply Rle_trans; [apply fold_Rmin_le_init | apply Rmin_l].
    + eapply Rle_trans; [apply fold_Rmin_le_init | apply Rmin_r].
    + apply IH. right. exact H.
Qed.

Lemma fold_Rmin_In (t : list R) (x : R) : In (fold_left Rmin t x) (x :: t).
Proof.
  revert x. induction t as [|z t IH]; intros x; simpl; [left; reflexivity|].
  destruct (IH (Rmin x z)) as [H|H].
  - unfold Rmin in H at 1. destruct (Rle_dec x z).
    + left. exact H.
    + right; left. exact H.
  - right; right. exact H.
Qed.

(** The extrema of a non-empty array of finite numbers. *)
Lemma np_extrema_Fin (xs : list R) (lo hi : float) :
  np_min (map Fin xs) = Returned lo ->
  np_max (map Fin xs) = Returned hi ->
  exists l h, lo = Fin l /\ hi = Fin h /\ In l xs /\ In h xs /\
              forall x, In x xs -> l <= x <= h.
Proof.
  destruct xs as [|x t]; simpl; [discriminate|].
  rewrite fold_fmin2_Fin, fold_fmax2_Fin. intros Hlo Hhi.
  injection Hlo as <-. injection Hhi as <-.
  exists (fold_left Rmin t x), (fold_left Rmax t x).
  repeat split; try reflexivity.
  - apply fold_Rmin_In.
  - apply fold_Rmax_In.
  - apply fold_Rmin_lower. exact H.
  - apply fold_Rmax_upper. exact H.
Qed.

(** The rt values that [predict] selects with the subject mask are the rt
    values of the subject's own rows. *)
Lemma select_own_rts (subject : cell) (d : DataFrame) :
  forall rts subjs a,
    df_col d "rt" = Returned rts ->
    df_col d "subject" = Returned subjs ->
    mapM cell_float (select (map (fun c => cell_eqb c subject) subjs) rts) =
    Returned a ->
    own_rts d subject = Returned a.
Proof.
  unfold df_col, own_rts, own_trials.
  induction d as [|r d IH]; intros rts subjs a Hrt Hsub Hsel; simpl in *.
  - injection Hrt as <-. injection Hsub as <-. simpl in Hsel. exact Hsel.
  - bind_inv Hrt rt Ert. bind_inv Hrt rts' Erts. injection Hrt as <-.
    bind_inv Hsub sc Es. bind_inv Hsub subjs' Ess. injection Hsub as <-.
    unfold row_get in Es.
    destruct (row_lookup r "subject") as [c|] eqn:Hc; [|discriminate].
    injection Es as ->. simpl in Hsel.
    destruct (cell_eqb sc subject).
    + simpl in Hsel |- *. rewrite Ert. cbn [bind].
      destruct (cell_float rt) as [x| |]; cbn [bind] in *; try discriminate.
      destruct (mapM cell_float _) as [xs| |] eqn:Hrest in Hsel;
        cbn [bind] in Hsel; try discriminate.
      rewrite (IH _ _ _ eq_refl eq_refl Hrest). exact Hsel.
    + apply (IH _ _ _ eq_refl eq_refl Hsel).
Qed.

Lemma subject_rts_own (m : model) (subject : cell) (a : list float) :
  subject_rts m subject = Returned a -> own_rts (data m) subject = Returned a.
Proof.
  unfold subject_rts. intros H.
  bind_inv H rts Ert. bind_inv H subjs Es.
  exact (select_own_rts subject (data m) _ _ _ Ert Es H).
Qed.

Lemma error_range_own (m : model) (subject : cell) (er : float * float) :
  error_range_of m subject = Returned er ->
  exists rts, own_rts (data m) subject = Returned rts /\
              np_min rts = Returned (fst er) /\
              np_max rts = Returned (snd er).
Proof.
  unfold error_range_of. intros H.
  bind_inv H a Ea. bind_inv H lo Emin. bind_inv H hi Emax.
  injection H as <-. simpl.
  exists a. repeat split; try assumption.
  apply subject_rts_own. exact Ea.
Qed.

(** What [trial_inputs] has computed when it returns. *)
Lemma trial_inputs_inv (m : model) (r : row) (p : parameters)
      (values gaze : list float) (er : float * float) :
  trial_inputs m r = Returned (p, values, gaze, er) ->
  exists subject subj_col,
    row_lookup r "subject" = Some subject /\
    df_col (estimates m) "subject" = Returned subj_col /\
    (let se := select (map (fun c => cell_eqb c subject) subj_col)
                      (estimates m) in
     exists v gamma s tau t0,
       p = (v, gamma, s, tau, t0) /\
       resolve_parameter m r se "v" = Returned v /\
       resolve_parameter m r se "gamma" = Returned gamma /\
       resolve_parameter m r se "s" = Returned s /\
       resolve_parameter m r se "tau" = Returned tau /\
       resolve_parameter m r se "t0" = Returned t0) /\
    error_range_of m subject = Returned er.
Proof.
  unfold trial_inputs. intros H.
  bind_inv H subject Esub. bind_inv H tr Etr. bind_inv H subj_col Ecol.
  bind_inv H v Ev. bind_inv H gamma Eg. bind_inv H s Es. bind_inv H tau Et.
  bind_inv H t0 E0. bind_inv H er' Eer. bind_inv H vc Evc. bind_inv H vs Evs.
  bind_inv H gc Egc. bind_inv H gs Egs. injection H as <- <- <- <-.
  unfold row_get in Esub.
  destruct (row_lookup r "subject") as [c|] eqn:Hc; [|discriminate].
  injection Esub as ->.
  exists subject, subj_col. repeat split; try reflexivity; try assumption.
  exists v, gamma, s, tau, t0. repeat split; assumption.
Qed.

(** ** Parameter resolution *)

Lemma lookup_failure_bind {A B} (m : outcome A) (k : A -> outcome B) :
  lookup_failure m -> lookup_failure (bind m k).
Proof. intros [->| ->]; [left | right]; reflexivity. Qed.

Lemma lookup_failure_bind_later {A B} (m : outcome A) (k : A -> outcome B) :
  (exists a, m = Returned a) \/ lookup_failure m ->
  (forall a, lookup_failure (k a)) ->
  lookup_failure (bind m k).
Proof.
  intros [[a ->]|H] Hk; [apply Hk | apply lookup_failure_bind, H].
Qed.

Lemma row_get_cases (r : row) (k : string) :
  (exists c, row_get r k = Returned c) \/ lookup_failure (row_get r k).
Proof.
  unfold row_get. destruct (row_lookup r k) as [c|].
  - left. exists c. reflexivity.
  - right. right. reflexivity.
Qed.

Lemma df_col_cases (d : DataFrame) (k : string) :
  (exists cs, df_col d k = Returned cs) \/ lookup_failure (df_col d k).
Proof.
  unfold df_col. induction d as [|r d IH]; simpl.
  - left. exists []. reflexivity.
  - destruct (row_get_cases r k) as [[c ->]|H]; cbn [bind].
    + destruct IH as [[cs ->]|H]; cbn [bind].
      * left. exists (c :: cs). reflexivity.
      * right. apply lookup_failure_bind, H.
    + right. apply lookup_failure_bind, H.
Qed.

Lemma assign_scalar_cases (l : list cell) :
  (exists x, assign_scalar l = Returned x) \/ lookup_failure (assign_scalar l).
Proof.
  destruct l as [|c [|c' l]]; simpl; try (right; left; reflexivity).
  destruct c; [left; eexists; reflexivity .. | right; left; reflexivity].
Qed.

Lemma resolve_parameter_cases (m : model) (r : row) (se : DataFrame)
      (parameter : string) :
  (exists x, resolve_parameter m r se parameter = Returned x) \/
  lookup_failure (resolve_parameter m r se parameter).
Proof.
  unfold resolve_parameter.
  destruct (dict_get (depends_on m) parameter) as [d|].
  - destruct (row_get_cases r d) as [[c ->]|H]; cbn [bind];
      [|right; apply lookup_failure_bind, H].
    destruct (df_col_cases se d) as [[dep ->]|H]; cbn [bind];
      [|right; apply lookup_failure_bind, H].
    destruct (df_col_cases se parameter) as [[par ->]|H]; cbn [bind];
      [|right; apply lookup_failure_bind, H].
    apply assign_scalar_cases.
  - destruct (df_col_cases se parameter) as [[par ->]|H]; cbn [bind];
      [|right; apply lookup_failure_bind, H].
    apply assign_scalar_cases.
Qed.

(** The rows kept by the subject mask are rows of the table whose subject
    passes the test. *)
Lemma select_subject_In (f : cell -> bool) (d : DataFrame) :
  forall cs e,
    df_col d "subject" = Returned cs ->
    In e (select (map f cs) d) ->
    In e d /\ exists c, row_lookup e "subject" = Some c /\ f c = true.
Proof.
  unfold df_col. induction d as [|r d IH]; intros cs e Hcol Hin; simpl in *.
  - injection Hcol as <-. simpl in Hin. contradiction.
  - bind_inv Hcol c Ec. bind_inv Hcol cs' Ecs. injection Hcol as <-.
    unfold row_get in Ec.
    destruct (row_lookup r "subject") as [c0|] eqn:Hc; [|discriminate].
    injection Ec as ->. simpl in Hin.
    destruct (f c) eqn:Hf.
    + destruct Hin as [<-|Hin].
      * split; [left; reflexivity|]. exists c. split; assumption.
      * destruct (IH cs' e eq_refl Hin) as [H1 H2]. split; [right|]; assumption.
    + destruct (IH cs' e eq_refl Hin) as [H1 H2]. split; [right|]; assumption.
Qed.

(** When no row of the selection carries the condition, the selection by
    condition is empty. *)
Lemma select_condition_empty (d : string) (condition : cell) (se : DataFrame)
      (parameter : string) :
  (forall e, In e se -> forall dc, row_lookup e d = Some dc ->
                                   cell_eqb dc condition = false) ->
  forall dep par,
    df_col se d = Returned dep ->
    df_col se parameter = Returned par ->
    select (map (fun c => cell_eqb c condition) dep) par = [].
Proof.
  unfold df_col. induction se as [|r se IH]; intros Hno dep par Hdep Hpar;
    simpl in *.
  - injection Hdep as <-. reflexivity.
  - bind_inv Hdep dc Edc. bind_inv Hdep dep' Edep. injection Hdep as <-.
    bind_inv Hpar pc Epc. bind_inv Hpar par' Epar. injection Hpar as <-.
    unfold row_get in Edc.
    destruct (row_lookup r d) as [c0|] eqn:Hc; [|discriminate].
    injection Edc as ->. simpl.
    rewrite (Hno r (or_introl eq_refl) dc Hc).
    apply IH; try reflexivity.
    intros e He. apply Hno. right. exact He.
Qed.

Lemma resolve_parameter_no_match (m : model) (r : row) (se : DataFrame)
      (parameter d : string) (condition : cell) :
  dict_get (depends_on m) parameter = Some d ->
  row_lookup r d = Some condition ->
  (forall e, In e se -> forall dc, row_lookup e d = Some dc ->
                                   cell_eqb dc condition = false) ->
  lookup_failure (resolve_parameter m r se parameter).
Proof.
  intros Hd Hc Hno. unfold resolve_parameter, row_get. rewrite Hd, Hc.
  cbn [bind].
  destruct (df_col_cases se d) as [[dep Hdep]|H]; rewrite ?Hdep; cbn [bind];
    [|apply lookup_failure_bind, H].
  destruct (df_col_cases se parameter) as [[par Hpar]|H]; rewrite ?Hpar;
    cbn [bind]; [|apply lookup_failure_bind, H].
  rewrite (select_condition_empty d condition se parameter Hno dep par Hdep Hpar).
  left. reflexivity.
Qed.

Lemma trial_inputs_no_match (m : model) (r : row) (parameter d : string)
      (subject condition : cell) :
  In parameter ["v"; "gamma"; "s"; "tau"; "t0"]%string ->
  dict_get (depends_on m) parameter = Some d ->
  row_lookup r "subject" = Some subject ->
  row_lookup r d = Some condition ->
  (forall e, In e (estimates m) ->
     forall sc dc, row_lookup e "subject" = Some sc ->
                   cell_eqb sc subject = true ->
                   row_lookup e d = Some dc ->
                   cell_eqb dc condition = false) ->
  lookup_failure (trial_inputs m r).
Proof.
  intros Hpar Hd Hsub Hc Hno. unfold trial_inputs.
  unfold row_get at 1. rewrite Hsub. cbn [bind].
  apply lookup_failure_bind_later; [apply row_get_cases|]. intros _.
  destruct (df_col_cases (estimates m) "subject") as [[cs Hcs]|H];
    rewrite ?Hcs; cbn [bind]; [|apply lookup_failure_bind, H].
  set (se := select (map (fun c => cell_eqb c subject) cs) (estimates m)).
  assert (Hfail : lookup_failure (resolve_parameter m r se parameter)).
  { apply (resolve_parameter_no_match m r se parameter d condition Hd Hc).
    intros e He dc Hdc.
    destruct (select_subject_In _ _ cs e Hcs He) as [Hin [sc [Hsc Heq]]].
    exact (Hno e Hin sc dc Hsc Heq Hdc). }
  simpl in Hpar.
  destruct Hpar as [<-|[<-|[<-|[<-|[<-|[]]]]]];
    repeat first
      [ apply lookup_failure_bind; exact Hfail
      | apply lookup_failure_bind_later;
        [apply resolve_parameter_cases | intros ?] ].
Qed.

Lemma Forall2_In_left {A B} (P : A -> B -> Prop) (l : list A) (m : list B)
      (a : A) :
  Forall2 P l m -> In a l -> exists b, P a b.
Proof.
  induction 1 as [|x y l m Hxy _ IH]; intros Hin; [contradiction|].
  destruct Hin as [<-|Hin]; [exists y; exact Hxy | apply IH, Hin].
Qed.

(** ** predict *)

Section PredictProperties.

Variable rng : Type.
Variable random_uniform : float -> float -> rng -> float * rng.
Variable random_choice : nat -> rng -> nat * rng.
Variable invgauss_rvs : float -> float -> rng -> float * rng.

Let trial := simulate_trial rng random_uniform random_choice invgauss_rvs.
Let run_row := predict_row rng random_uniform random_choice invgauss_rvs.
Let run := predict rng random_uniform random_choice invgauss_rvs.

Lemma pred_row_frame (r : row) (c : choice_val) (rt : float) (rep : nat)
      (col : string) :
  col <> "choice"%string -> col <> "rt"%string -> col <> "repeat"%string ->
  row_lookup (pred_row r c rt rep) col = row_lookup r col.
Proof.
  intros H1 H2 H3. unfold pred_row.
  rewrite !row_lookup_set_other by congruence. reflexivity.
Qed.

Lemma pred_row_written (r : row) (c : choice_val) (rt : float) (rep : nat) :
  row_lookup (pred_row r c rt rep) "choice" = Some (choice_cell c) /\
  row_lookup (pred_row r c rt rep) "rt" = Some (Float rt) /\
  row_lookup (pred_row r c rt rep) "repeat" = Some (Int (Z.of_nat rep)).
Proof.
  unfold pred_row. repeat split.
  - rewrite !row_lookup_set_other by discriminate.
    apply row_lookup_set_same.
  - rewrite row_lookup_set_other by discriminate.
    apply row_lookup_set_same.
  - apply row_lookup_set_same.
Qed.

(** What [predict_row] returns: one row for each repeat, each the
    observed row with the outcome of one call of [simulate_trial]. *)
Lemma predict_row_rows (fuel : nat) (m : model) (n_repeats : nat)
      (boundary error_weight : float) (r : row) (g : rng)
      (rows : list row) (g' : rng) :
  run_row fuel m n_repeats boundary error_weight r g = Returned (rows, g') ->
  exists p values gaze error_range,
    trial_inputs m r = Returned (p, values, gaze, error_range) /\
    length rows = n_repeats /\
    forall rep, (rep < n_repeats)%nat ->
      exists c rt g0 g1,
        trial fuel p values gaze boundary error_weight error_range g0 =
        Returned (c, rt, g1) /\
        nth_error rows rep = Some (pred_row r c rt rep).
Proof.
  unfold run_row, predict_row. intros H.
  destruct (trial_inputs m r) as [[[[p values] gaze] er]| |];
    simpl in H; try discriminate.
  exists p, values, gaze, er. split; [reflexivity|].
  apply mapM_st_Forall2 in H.
  pose proof (Forall2_length_eq _ _ _ H) as Hlen.
  rewrite length_seq in Hlen. split; [congruence|].
  intros rep Hrep.
  destruct (Forall2_nth_error _ _ _ rep rep H) as [row' [Hnth [g0 [g1 Hrun]]]].
  { rewrite nth_error_nth' with (d := 0%nat) by (rewrite length_seq; exact Hrep).
    rewrite seq_nth by exact Hrep. reflexivity. }
  fold trial in Hrun.
  destruct (trial fuel p values gaze boundary error_weight er g0)
    as [[[c rt] g2]| |] eqn:Ht; simpl in Hrun; try discriminate.
  injection Hrun as <- <-.
  exists c, rt, g0, g2. split; [exact Ht | exact Hnth].
Qed.

(** C6: in the table that [predict] returns, the row of the observed
    trial k and the repeat rep (at index k * n_repeats + rep) is the
    observed row with choice, rt and repeat overwritten by the choice and
    the rt of one call of [simulate_trial] and by rep; every other column
    holds what the observed row holds. *)
Theorem predict_frame (fuel : nat) (m : model) (n_repeats : nat)
        (boundary error_weight : float) (verbose : bool) (g : rng)
        (table : DataFrame) (g' : rng) :
  run fuel m n_repeats boundary error_weight verbose g =
  Returned (table, g') ->
  length table = (length (data m) * n_repeats)%nat /\
  forall k rep r,
    nth_error (data m) k = Some r -> (rep < n_repeats)%nat ->
    exists row' c rt,
      nth_error table (k * n_repeats + rep) = Some row' /\
      (exists p values gaze error_range g0 g1,
          trial_inputs m r = Returned (p, values, gaze, error_range) /\
          trial fuel p values gaze boundary error_weight error_range g0 =
          Returned (c, rt, g1)) /\
      row_lookup row' "choice" = Some (choice_cell c) /\
      row_lookup row' "rt" = Some (Float rt) /\
      row_lookup row' "repeat" = Some (Int (Z.of_nat rep)) /\
      forall col, col <> "choice"%string -> col <> "rt"%string ->
                  col <> "repeat"%string ->
                  row_lookup row' col = row_lookup r col.
Proof.
  unfold run, predict. intros H.
  destruct (df_col (data m) "subject") as [subjects| |];
    simpl in H; try discriminate.
  destruct (mapM_st rng _ (data m) g) as [[groups g1]| |] eqn:Hloop;
    simpl in H; try discriminate.
  injection H as <- <-.
  apply mapM_st_Forall2 in Hloop.
  assert (Hall : Forall (fun l : list row => length l = n_repeats) groups).
  { induction Hloop as [|r grp rows groups Hr _ IH];
      constructor; [|exact IH].
    destruct Hr as [ga [gb Hr]].
    apply predict_row_rows in Hr.
    destruct Hr as [p [values [gaze [er [_ [Hlen _]]]]]]. exact Hlen. }
  split.
  - rewrite length_concat_uniform with (n := n_repeats) by exact Hall.
    rewrite (Forall2_length_eq _ _ _ Hloop). reflexivity.
  - intros k rep r Hk Hrep.
    destruct (Forall2_nth_error _ _ _ k r Hloop Hk)
      as [grp [Hgrp [g0 [g2 Hr]]]].
    apply predict_row_rows in Hr.
    destruct Hr as [p [values [gaze [er [Hin [Hlen Hrows]]]]]].
    destruct (Hrows rep Hrep) as [c [rt [g3 [g4 [Ht Hnth]]]]].
    exists (pred_row r c rt rep), c, rt.
    split.
    { rewrite (nth_error_concat_uniform n_repeats groups k rep grp);
        assumption. }
    split.
    { exists p, values, gaze, er, g3, g4. split; assumption. }
    destruct (pred_row_written r c rt rep) as [Hc [Hrt Hrp]].
    repeat split; try assumption.
    intros col H1 H2 H3. apply pred_row_frame; assumption.
Qed.

(** C7: for an observed trial, the error range with which [predict] calls
    [simulate_trial] (at every repeat) is the pair (np.min, np.max) of the
    rt values of the rows of the observed table that carry this trial's
    subject, and of no other row; when these values are finite it is their
    least and their greatest element. *)
Theorem error_range_per_subject (fuel : nat) (m : model) (n_repeats : nat)
        (boundary error_weight : float) (r : row) (g : rng)
        (rows : list row) (g' : rng) :
  run_row fuel m n_repeats boundary error_weight r g = Returned (rows, g') ->
  exists subject rts p values gaze error_range,
    row_lookup r "subject" = Some subject /\
    own_rts (data m) subject = Returned rts /\
    np_min rts = Returned (fst error_range) /\
    np_max rts = Returned (snd error_range) /\
    (forall xs, rts = map Fin xs ->
       exists lo hi, error_range = (Fin lo, Fin hi) /\ In lo xs /\ In hi xs /\
                     forall x, In x xs -> lo <= x <= hi) /\
    trial_inputs m r = Returned (p, values, gaze, error_range) /\
    forall rep, (rep < n_repeats)%nat ->
      exists c rt g0 g1,
        trial fuel p values gaze boundary error_weight error_range g0 =
        Returned (c, rt, g1) /\
        nth_error rows rep = Some (pred_row r c rt rep).
Proof.
  intros H. apply predict_row_rows in H.
  destruct H as [p [values [gaze [er [Hin [_ Hrows]]]]]].
  destruct (trial_inputs_inv m r p values gaze er Hin)
    as [subject [subj_col [Hsub [_ [_ Her]]]]].
  destruct (error_range_own m subject er Her) as [rts [Hown [Hmin Hmax]]].
  exists subject, rts, p, values, gaze, er.
  repeat split; try assumption.
  intros xs ->.
  destruct (np_extrema_Fin xs _ _ Hmin Hmax) as [l [h [Hl [Hh Hrest]]]].
  exists l, h. split; [|exact Hrest].
  destruct er as [lo hi]. simpl in *. congruence.
Qed.

(** C5 (amended): when a parameter depends on a condition column and no
    row of the estimates carries both the subject of an observed trial and
    that trial's condition value, the resolution of the trial's parameters
    raises the ValueError of the array assignment (or the KeyError of a
    missing label, which the code raises first if a column is absent), and
    [predict] returns no table: nothing is substituted for the estimate.
    The code has no condition of its own for the missing estimate. *)
Theorem missing_estimate_raises (m : model) (r : row) (parameter d : string)
        (subject condition : cell) :
  In parameter ["v"; "gamma"; "s"; "tau"; "t0"]%string ->
  dict_get (depends_on m) parameter = Some d ->
  In r (data m) ->
  row_lookup r "subject" = Some subject ->
  row_lookup r d = Some condition ->
  (forall e, In e (estimates m) ->
     forall sc dc, row_lookup e "subject" = Some sc ->
                   cell_eqb sc subject = true ->
                   row_lookup e d = Some dc ->
                   cell_eqb dc condition = false) ->
  lookup_failure (trial_inputs m r) /\
  forall fuel n_repeats boundary error_weight verbose g table g',
    run fuel m n_repeats boundary error_weight verbose g <>
    Returned (table, g').
Proof.
  intros Hpar Hd Hr Hsub Hc Hno.
  pose proof (trial_inputs_no_match m r parameter d subject condition
                                    Hpar Hd Hsub Hc Hno) as Hfail.
  split; [exact Hfail|].
  intros fuel n_repeats boundary error_weight verbose g table g' H.
  unfold run, predict in H.
  bind_inv H subjects Es.
  destruct (mapM_st rng _ (data m) g) as [[groups g1]| |] eqn:Hloop;
    cbn [bind] in H; try discriminate.
  apply mapM_st_Forall2 in Hloop.
  destruct (Forall2_In_left _ _ _ r Hloop Hr) as [grp [g0 [g2 Hrow]]].
  apply predict_row_rows in Hrow.
  destruct Hrow as [p [values [gaze [er [Hin _]]]]].
  destruct Hfail as [Hf|Hf]; rewrite Hf in Hin; discriminate.
Qed.

End PredictProperties.

(** ** The rt of an emitted row *)

Lemma Forall2_Forall_right {A B} (P : A -> B -> Prop) (Q : B -> Prop)
      (l : list A) (m : list B) :
  Forall2 P l m -> (forall a b, P a b -> Q b) -> Forall Q m.
Proof.
  intros H HPQ. induction H as [|x y l m Hxy _ IH]; constructor.
  - exact (HPQ x y Hxy).
  - exact IH.
Qed.

Lemma zip_with_row_set_valid (k : string) (df : DataFrame) (a : list cell) :
  k <> "rt"%string ->
  Forall row_rt_valid df ->
  Forall row_rt_valid (zip_with (fun r c => row_set r k c) df a).
Proof.
  intros Hk H. revert a. induction H as [|r df Hr _ IH]; intros a; simpl.
  - constructor.
  - destruct a as [|c a]; constructor; [|apply IH].
    destruct Hr as [x [Hx Hpos]]. exists x.
    rewrite row_lookup_set_other by exact Hk. split; assumption.
Qed.

Lemma df_set_col_valid (k : string) (df df' : DataFrame) (a : list cell) :
  k <> "rt"%string ->
  Forall row_rt_valid df ->
  df_set_col df k a = Returned df' ->
  Forall row_rt_valid df'.
Proof.
  intros Hk H. unfold df_set_col.
  destruct (length a =? length df)%nat; [|discriminate].
  intros E. injection E as <-. apply zip_with_row_set_valid; assumption.
Qed.

Lemma value_col_not_rt (i : nat) : value_col i <> "rt"%string.
Proof. unfold value_col. simpl. discriminate. Qed.

Lemma gaze_col_not_rt (i : nat) : gaze_col i <> "rt"%string.
Proof. unfold gaze_col. simpl. discriminate. Qed.

Lemma add_item_columns_valid (values gaze : matrix) (n_repeats : nat)
      (items : list nat) :
  forall df df',
    Forall row_rt_valid df ->
    add_item_columns values gaze n_repeats items df = Returned df' ->
    Forall row_rt_valid df'.
Proof.
  induction items as [|i items IH]; intros df df' Hdf H; simpl in H.
  - injection H as <-. exact Hdf.
  - bind_inv H vc Evc. bind_inv H df1 Hset1. bind_inv H gc Egc.
    bind_inv H df2 Hset2.
    apply (IH df2 df'); [|exact H].
    apply (df_set_col_valid _ _ _ _ (gaze_col_not_rt i)) in Hset2;
      [exact Hset2|].
    apply (df_set_col_valid _ _ _ _ (value_col_not_rt i)) in Hset1; assumption.
Qed.

Lemma Forall2_In_right {A B} (P : A -> B -> Prop) (l : list A) (m : list B)
      (b : B) :
  Forall2 P l m -> In b m -> exists a, In a l /\ P a b.
Proof.
  induction 1 as [|x y l m Hxy _ IH]; intros Hin; [contradiction|].
  destruct Hin as [<-|Hin].
  - exists x. split; [left; reflexivity | exact Hxy].
  - destruct (IH Hin) as [a [Ha HP]]. exists a. split; [right|]; assumption.
Qed.

Lemma df_col_In (d : DataFrame) (k : string) (cs : list cell) (c : cell) :
  df_col d k = Returned cs -> In c cs ->
  exists e, In e d /\ row_lookup e k = Some c.
Proof.
  intros H Hin. apply mapM_Forall2 in H.
  destruct (Forall2_In_right _ _ _ c H Hin) as [e [He Hget]].
  exists e. split; [exact He|]. unfold row_get in Hget.
  destruct (row_lookup e k); [congruence | discriminate].
Qed.

Lemma select_In {A} (mask : list bool) (l : list A) (x : A) :
  In x (select mask l) -> In x l.
Proof.
  revert l. induction mask as [|b mask IH]; intros [|y l] H; simpl in *;
    try contradiction.
  destruct b.
  - destruct H as [->|H]; [left; reflexivity | right; apply IH, H].
  - right. apply IH, H.
Qed.

Lemma assign_scalar_head (l : list cell) (x : float) :
  assign_scalar (firstn 1 l) = Returned x ->
  exists c, In c l /\ assign_scalar [c] = Returned x.
Proof.
  destruct l as [|c l]; simpl; [discriminate|].
  intros H. exists c. split; [left; reflexivity | exact H].
Qed.

(** A resolved parameter is a cell of that parameter's column, in a row of
    the estimates. *)
Lemma resolve_parameter_value (m : model) (r : row) (se : DataFrame)
      (parameter : string) (x : float) :
  resolve_parameter m r se parameter = Returned x ->
  exists e c, In e se /\ row_lookup e parameter = Some c /\
              assign_scalar [c] = Returned x.
Proof.
  unfold resolve_parameter. intros H.
  destruct (dict_get (depends_on m) parameter) as [d|].
  - bind_inv H cond Ec. bind_inv H dep Edep. bind_inv H par Epar.
    destruct (assign_scalar_head _ _ H) as [c [Hin Hc]].
    apply select_In in Hin.
    destruct (df_col_In _ _ _ _ Epar Hin) as [e [He Hl]].
    exists e, c. repeat split; assumption.
  - bind_inv H par Epar.
    destruct (assign_scalar_head _ _ H) as [c [Hin Hc]].
    destruct (df_col_In _ _ _ _ Epar Hin) as [e [He Hl]].
    exists e, c. repeat split; assumption.
Qed.

Lemma cell_nonneg_assign (c : cell) (x : float) :
  cell_nonneg c -> assign_scalar [c] = Returned x -> rt_valid x.
Proof.
  destruct c as [z|[y| | |]|s]; simpl; intros Hc H; try contradiction;
    injection H as <-.
  - exists (IZR z). split; [reflexivity | apply IZR_le; exact Hc].
  - exists y. split; [reflexivity | exact Hc].
Qed.

Lemma cell_nonneg_float (c : cell) (x : float) :
  cell_nonneg c -> cell_float c = Returned x -> rt_valid x.
Proof.
  destruct c as [z|[y| | |]|s]; simpl; intros Hc H; try contradiction;
    injection H as <-.
  - exists (IZR z). split; [reflexivity | apply IZR_le; exact Hc].
  - exists y. split; [reflexivity | exact Hc].
Qed.

Lemma mapM_Forall_out {A B} (f : A -> outcome B) (Q : B -> Prop)
      (l : list A) (bs : list B) :
  (forall a, In a l -> forall b, f a = Returned b -> Q b) ->
  mapM f l = Returned bs -> Forall Q bs.
Proof.
  revert bs. induction l as [|a l IH]; intros bs HQ H; simpl in H.
  - injection H as <-. constructor.
  - bind_inv H b Eb. bind_inv H bs' Ebs. injection H as <-.
    constructor.
    + apply (HQ a (or_introl eq_refl) b Eb).
    + apply IH; [|reflexivity]. intros a' Ha'. apply HQ. right. exact Ha'.
Qed.

Lemma own_rts_valid (d : DataFrame) (subject : cell) (rts : list float) :
  (forall r, In r d -> forall c, row_lookup r "rt" = Some c -> cell_nonneg c) ->
  own_rts d subject = Returned rts ->
  Forall rt_valid rts.
Proof.
  intros Hd. unfold own_rts. apply mapM_Forall_out.
  intros r Hr x. unfold own_trials in Hr. apply filter_In in Hr.
  destruct Hr as [Hr _]. unfold row_get.
  destruct (row_lookup r "rt") as [c|] eqn:Hc; cbn [bind]; [|discriminate].
  apply cell_nonneg_float. exact (Hd r Hr c Hc).
Qed.

Lemma Forall_rt_valid_map (rts : list float) :
  Forall rt_valid rts ->
  exists xs, rts = map Fin xs /\ Forall (fun x => 0 <= x) xs.
Proof.
  induction 1 as [|f rts [x [-> Hx]] _ [xs [-> Hxs]]].
  - exists []. split; [reflexivity | constructor].
  - exists (x :: xs). split; [reflexivity | constructor; assumption].
Qed.

(** With non-negative finite numbers in the t0 column of the estimates and
    in the rt column of the observed table, the inputs that [predict]
    hands to [simulate_trial] have a non-negative finite t0 and a finite
    error range within the non-negative numbers. *)
Lemma trial_inputs_valid (m : model) (r : row) (p : parameters)
      (values gaze : list float) (er : float * float) :
  (forall e, In e (estimates m) ->
     forall c, row_lookup e "t0" = Some c -> cell_nonneg c) ->
  (forall r', In r' (data m) ->
     forall c, row_lookup r' "rt" = Some c -> cell_nonneg c) ->
  trial_inputs m r = Returned (p, values, gaze, er) ->
  exists v gamma s tau t0 low high,
    p = (v, gamma, s, tau, Fin t0) /\ 0 <= t0 /\
    er = (Fin low, Fin high) /\ 0 <= low <= high.
Proof.
  intros Ht0 Hrt H.
  destruct (trial_inputs_inv m r p values gaze er H)
    as [subject [subj_col [Hsub [Hcol [Hpar Her]]]]].
  cbv zeta in Hpar.
  destruct Hpar as [v [gamma [s [tau [t0 [-> [_ [_ [_ [_ Hres]]]]]]]]]].
  destruct (resolve_parameter_value _ _ _ _ _ Hres) as [e [c [He [Hc Ha]]]].
  apply select_subject_In with (cs := subj_col) in He; [|exact Hcol].
  destruct He as [He _].
  destruct (cell_nonneg_assign c t0 (Ht0 e He c Hc) Ha) as [t [-> Ht]].
  destruct (error_range_own m subject er Her) as [rts [Hown [Hmin Hmax]]].
  destruct (Forall_rt_valid_map rts (own_rts_valid _ _ _ Hrt Hown))
    as [xs [-> Hxs]].
  destruct (np_extrema_Fin xs _ _ Hmin Hmax) as [l [h [Hl [Hh [Hlin [_ Hb]]]]]].
  exists v, gamma, s, tau, t, l, h.
  repeat split; try assumption; try reflexivity.
  - destruct er as [lo hi]. simpl in *. congruence.
  - rewrite Forall_forall in Hxs. apply Hxs. exact Hlin.
  - apply (Hb l Hlin).
Qed.

Section EmittedRt.

Variable rng : Type.
Variable random_uniform : float -> float -> rng -> float * rng.
Variable random_choice : nat -> rng -> nat * rng.
Variable invgauss_rvs : float -> float -> rng -> float * rng.

Let trial := simulate_trial rng random_uniform random_choice invgauss_rvs.
Let subject_run :=
  simulate_subject rng random_uniform random_choice invgauss_rvs.
Let run := predict rng random_uniform random_choice invgauss_rvs.

(** [np.random.uniform] draws from the range it is given. *)
Hypothesis uniform_in_range :
  forall (low high : R) (g : rng), low <= high ->
    exists u, fst (random_uniform (Fin low) (Fin high) g) = Fin u /\
              low <= u <= high.

Lemma simulate_trial_rt_valid (fuel : nat) (v gamma s tau : float)
      (t0 low high : R) (values gaze : list float)
      (boundary error_weight : float) (g : rng)
      (choice : choice_val) (rt : float) (g' : rng) :
  0 <= t0 -> 0 <= low <= high ->
  trial fuel (v, gamma, s, tau, Fin t0) values gaze boundary error_weight
        (Fin low, Fin high) g = Returned (choice, rt, g') ->
  rt_valid rt.
Proof.
  intros Ht0 Hrange. unfold trial, simulate_trial. intros H.
  destruct (random_uniform (Fin 0) (Fin 1) g) as [u g1].
  destruct (flt u error_weight).
  - simpl fst in H. simpl snd in H.
    destruct (uniform_in_range low high g1 ltac:(lra)) as [x [Hx Hin]].
    destruct (random_uniform (Fin low) (Fin high) g1) as [rt0 g2].
    simpl in Hx. subst rt0.
    destruct (length values =? 0)%nat; [discriminate|].
    destruct (random_choice (length values) g2) as [c g3].
    injection H as _ <- _. exists x. split; [reflexivity | lra].
  - apply race_loop_returns in H.
    destruct H as [Rs [FPTs [m [c [g0 [_ [_ [_ [Hm [_ [_ [-> _]]]]]]]]]]]].
    exists (m + t0). split; [reflexivity | lra].
Qed.

Lemma simulate_subject_rt_valid (fuel : nat) (v gamma s tau : float)
      (t0 low high : R) (values gaze : matrix) (n_repeats : nat)
      (subject boundary error_weight : float) (g : rng)
      (df : DataFrame) (g' : rng) :
  0 <= t0 -> 0 <= low <= high ->
  subject_run fuel (v, gamma, s, tau, Fin t0) values gaze n_repeats subject
              boundary error_weight (Fin low, Fin high) g = Returned (df, g') ->
  Forall row_rt_valid df.
Proof.
  intros Ht0 Hrange. unfold subject_run, simulate_subject. intros H.
  destruct (mapM_st rng _ _ g) as [[sims g1]| |] eqn:Hsims;
    cbn [bind] in H; try discriminate.
  bind_inv H df' Hcols. injection H as <- _.
  refine (add_item_columns_valid _ _ _ _ _ _ _ Hcols).
  apply mapM_st_Forall2 in Hsims.
  apply Forall_map.
  apply (Forall2_Forall_right _ _ _ _ Hsims).
  intros [t r] [[[t' r'] c] rt] [g0 [g2 Hbody]].
  bind_inv Hbody vs Evs. bind_inv Hbody gz Egz.
  destruct (simulate_trial rng random_uniform random_choice invgauss_rvs
              fuel (v, gamma, s, tau, Fin t0) vs gz boundary error_weight
              (Fin low, Fin high) g0) as [[[c0 rt0] g3]| |] eqn:Htrial;
    cbn [bind] in Hbody; try discriminate.
  injection Hbody as <- <- <- <- _.
  destruct (simulate_trial_rt_valid fuel v gamma s tau t0 low high vs gz
              boundary error_weight g0 c0 rt0 g3 Ht0 Hrange Htrial)
    as [x [-> Hx]].
  exists x. split; [reflexivity | exact Hx].
Qed.

Lemma predict_rt_valid (fuel : nat) (m : model) (n_repeats : nat)
      (boundary error_weight : float) (verbose : bool) (g : rng)
      (table : DataFrame) (g' : rng) :
  (forall e, In e (estimates m) ->
     forall c, row_lookup e "t0" = Some c -> cell_nonneg c) ->
  (forall r, In r (data m) ->
     forall c, row_lookup r "rt" = Some c -> cell_nonneg c) ->
  run fuel m n_repeats boundary error_weight verbose g =
  Returned (table, g') ->
  Forall row_rt_valid table.
Proof.
  intros Ht0 Hrt H. unfold run, predict in H.
  bind_inv H subjects Es.
  destruct (mapM_st rng _ (data m) g) as [[groups g1]| |] eqn:Hloop;
    cbn [bind] in H; try discriminate.
  injection H as <- _.
  apply mapM_st_Forall2 in Hloop.
  apply Forall_forall. intros row' Hin.
  apply in_concat in Hin. destruct Hin as [grp [Hgrp Hin]].
  destruct (Forall2_In_right _ _ _ grp Hloop Hgrp) as [r [Hr [g0 [g2 Hrow]]]].
  apply predict_row_rows in Hrow.
  destruct Hrow as [p [values [gaze [er [Hinp [Hlen Hrows]]]]]].
  destruct (In_nth_error _ _ Hin) as [rep Hrep].
  assert (Hlt : (rep < n_repeats)%nat).
  { rewrite <- Hlen. apply nth_error_Some. congruence. }
  destruct (Hrows rep Hlt) as [c [rt [g3 [g4 [Htrial Hnth]]]]].
  rewrite Hrep in Hnth. injection Hnth as ->.
  destruct (trial_inputs_valid m r p values gaze er Ht0 Hrt Hinp)
    as [v [gamma [s [tau [t0 [low [high [-> [Hpos [-> Hrange]]]]]]]]]].
  destruct (simulate_trial_rt_valid fuel v gamma s tau t0 low high values gaze
              boundary error_weight g3 c rt g4 Hpos Hrange Htrial)
    as [x [-> Hx]].
  exists x. split; [|exact Hx].
  apply (pred_row_written r c (Fin x) rep).
Qed.

(** C8 (amended): when t0 is finite and not negative and the error range
    is a pair of finite numbers 0 <= low <= high, every rt that
    [simulate_trial] returns is finite and not negative, under any
    error_weight, and so is the rt of every row of the table of
    [simulate_subject]; the same holds for every row of the table of
    [predict] when the t0 column of the estimates and the rt column of the
    observed table hold finite non-negative numbers.  (The missing marker
    is never returned: the loop replaces it before it ends.) *)
Theorem emitted_rt_valid :
  (forall fuel v gamma s tau (t0 low high : R) values gaze boundary
          error_weight g choice rt g',
      0 <= t0 -> 0 <= low <= high ->
      trial fuel (v, gamma, s, tau, Fin t0) values gaze boundary error_weight
            (Fin low, Fin high) g = Returned (choice, rt, g') ->
      rt_valid rt) /\
  (forall fuel v gamma s tau (t0 low high : R) values gaze n_repeats subject
          boundary error_weight g df g',
      0 <= t0 -> 0 <= low <= high ->
      subject_run fuel (v, gamma, s, tau, Fin t0) values gaze n_repeats
                  subject boundary error_weight (Fin low, Fin high) g =
      Returned (df, g') ->
      Forall row_rt_valid df) /\
  (forall fuel m n_repeats boundary error_weight verbose g table g',
      (forall e, In e (estimates m) ->
         forall c, row_lookup e "t0" = Some c -> cell_nonneg c) ->
      (forall r, In r (data m) ->
         forall c, row_lookup r "rt" = Some c -> cell_nonneg c) ->
      run fuel m n_repeats boundary error_weight verbose g =
      Returned (table, g') ->
      Forall row_rt_valid table).
Proof.
  split; [|split].
  - intros. eapply simulate_trial_rt_valid; eassumption.
  - intros. eapply simulate_subject_rt_valid; eassumption.
  - intros. eapply predict_rt_valid; eassumption.
Qed.

End EmittedRt.

(** ** Runs of predict and simulate_subject on the example model *)

Ltac run_floats :=
  simpl; float_cmp; simpl;
  rewrite ?fmin2_Fin, ?fmax2_Fin;
  rewrite ?(Rmin_left 2 4), ?(Rmax_right 2 4) by lra.

Lemma predict_example_run :
  predict nat uniform_low choice_first (invgauss_const (Fin 1)) 1
          example_model 2 (Fin 1) (Fin 1) true 0%nat =
  Returned (example_table, 18%nat).
Proof.
  unfold predict, predict_row, simulate_trial. run_floats. reflexivity.
Qed.

Lemma predict_row_example_run :
  predict_row nat uniform_low choice_first (invgauss_const (Fin 1)) 1
              example_model 2 (Fin 1) (Fin 1) (observed 1 0 2 "A") 0%nat =
  Returned ([pred_row (observed 1 0 2 "A") (Idx 0) (Fin 2) 0;
             pred_row (observed 1 0 2 "A") (Idx 0) (Fin 2) 1], 6%nat).
Proof.
  unfold predict_row, simulate_trial. run_floats. reflexivity.
Qed.

Lemma simulate_subject_example_run :
  exists df g',
    simulate_subject nat uniform_low choice_first (invgauss_const (Fin 1)) 1
                     (Fin 1, Fin (1/5), Fin (1/5), Fin (1/2), Fin 300)
                     [[Fin 5; Fin 3]; [Fin 4; Fin 4]]
                     [[Fin (4/5); Fin (1/5)]; [Fin (1/2); Fin (1/2)]]
                     2 (Fin 7) (Fin 1) (Fin 1) (Fin 0, Fin 5) 0%nat =
    Returned (df, g').
Proof.
  unfold simulate_subject, simulate_trial. run_floats.
  eexists. eexists. reflexivity.
Qed.

Lemma predict_frame_witness :
  length example_table = (length (data example_model) * 2)%nat /\
  forall k rep r,
    nth_error (data example_model) k = Some r -> (rep < 2)%nat ->
    exists row' c rt,
      nth_error example_table (k * 2 + rep) = Some row' /\
      (exists p values gaze error_range g0 g1,
          trial_inputs example_model r =
          Returned (p, values, gaze, error_range) /\
          simulate_trial nat uniform_low choice_first (invgauss_const (Fin 1))
                         1 p values gaze (Fin 1) (Fin 1) error_range g0 =
          Returned (c, rt, g1)) /\
      row_lookup row' "choice" = Some (choice_cell c) /\
      row_lookup row' "rt" = Some (Float rt) /\
      row_lookup row' "repeat" = Some (Int (Z.of_nat rep)) /\
      forall col, col <> "choice"%string -> col <> "rt"%string ->
                  col <> "repeat"%string ->
                  row_lookup row' col = row_lookup r col.
Proof.
  apply (predict_frame nat uniform_low choice_first (invgauss_const (Fin 1))
                       1 example_model 2 (Fin 1) (Fin 1) true 0%nat
                       example_table 18%nat).
  exact predict_example_run.
Defined.

Lemma error_range_per_subject_witness :
  exists subject rts p values gaze error_range,
    row_lookup (observed 1 0 2 "A") "subject" = Some subject /\
    own_rts (data example_model) subject = Returned rts /\
    np_min rts = Returned (fst error_range) /\
    np_max rts = Returned (snd error_range) /\
    (forall xs, rts = map Fin xs ->
       exists lo hi, error_range = (Fin lo, Fin hi) /\ In lo xs /\ In hi xs /\
                     forall x, In x xs -> lo <= x <= hi) /\
    trial_inputs example_model (observed 1 0 2 "A") =
    Returned (p, values, gaze, error_range) /\
    forall rep, (rep < 2)%nat ->
      exists c rt g0 g1,
        simulate_trial nat uniform_low choice_first (invgauss_const (Fin 1))
                       1 p values gaze (Fin 1) (Fin 1) error_range g0 =
        Returned (c, rt, g1) /\
        nth_error [pred_row (observed 1 0 2 "A") (Idx 0) (Fin 2) 0;
                   pred_row (observed 1 0 2 "A") (Idx 0) (Fin 2) 1] rep =
        Some (pred_row (observed 1 0 2 "A") c rt rep).
Proof.
  apply (error_range_per_subject nat uniform_low choice_first
           (invgauss_const (Fin 1)) 1 example_model 2 (Fin 1) (Fin 1)
           (observed 1 0 2 "A") 0%nat _ 6%nat).
  exact predict_row_example_run.
Defined.

Lemma emitted_rt_valid_witness :
  rt_valid (Fin (1 + 300)) /\
  (exists df g',
      simulate_subject nat uniform_low choice_first (invgauss_const (Fin 1)) 1
                       (Fin 1, Fin (1/5), Fin (1/5), Fin (1/2), Fin 300)
                       [[Fin 5; Fin 3]; [Fin 4; Fin 4]]
                       [[Fin (4/5); Fin (1/5)]; [Fin (1/2); Fin (1/2)]]
                       2 (Fin 7) (Fin 1) (Fin 1) (Fin 0, Fin 5) 0%nat =
      Returned (df, g') /\
      Forall row_rt_valid df) /\
  Forall row_rt_valid example_table.
Proof.
  destruct (emitted_rt_valid nat uniform_low choice_first
                             (invgauss_const (Fin 1)) uniform_low_in_range)
    as [Htrial [Hsubject Hpredict]].
  split; [|split].
  - apply (Htrial 1%nat (Fin 1) (Fin (1/5)) (Fin (1/5)) (Fin (1/2)) 300 0 5
                  (map Fin [5; 3]) (map Fin [4/5; 1/5]) (Fin 1) (Fin 0)
                  0%nat (Idx 0) (Fin (1 + 300)) 3%nat).
    + lra.
    + lra.
    + exact race_rt_valid_run.
  - destruct simulate_subject_example_run as [df [g' Hrun]].
    exists df, g'. split; [exact Hrun|].
    apply (Hsubject 1%nat (Fin 1) (Fin (1/5)) (Fin (1/5)) (Fin (1/2)) 300 0 5
                    [[Fin 5; Fin 3]; [Fin 4; Fin 4]]
                    [[Fin (4/5); Fin (1/5)]; [Fin (1/2); Fin (1/2)]]
                    2%nat (Fin 7) (Fin 1) (Fin 1) 0%nat df g').
    + lra.
    + lra.
    + exact Hrun.
  - apply (Hpredict 1%nat example_model 2%nat (Fin 1) (Fin 1) true 0%nat
                    example_table 18%nat).
    + intros e [<-|[<-|[]]] c H; simpl in H; injection H as <-; simpl; lra.
    + intros r [<-|[<-|[<-|[]]]] c H; simpl in H; injection H as <-;
        simpl; lra.
    + exact predict_example_run.
Defined.

(** C8, refuted on an input: with error_weight = 1 and the error range
    (-5, 5) the error branch returns the draw -5; with error_weight = 0 and
    t0 = -300 the race returns 1 - 300.  Both are negative and neither is
    the missing marker. *)
Lemma emitted_rt_counterexample :
  (simulate_trial nat uniform_low choice_first (invgauss_const (Fin 1)) 1
                  (Fin 1, Fin (1/5), Fin (1/5), Fin (1/2), Fin 300)
                  (map Fin [5; 3]) (map Fin [4/5; 1/5])
                  (Fin 1) (Fin 1) (Fin (-5), Fin 5) 0%nat =
   Returned (Idx 0, Fin (-5), 3%nat) /\
   ~ rt_valid (Fin (-5)) /\ fisnan (Fin (-5)) = false) /\
  (simulate_trial nat uniform_low choice_first (invgauss_const (Fin 1)) 1
                  (Fin 1, Fin (1/5), Fin (1/5), Fin (1/2), Fin (-300))
                  (map Fin [5; 3]) (map Fin [4/5; 1/5])
                  (Fin 1) (Fin 0) (Fin 0, Fin 5) 0%nat =
   Returned (Idx 0, Fin (1 + -300), 3%nat) /\
   ~ rt_valid (Fin (1 + -300)) /\ fisnan (Fin (1 + -300)) = false).
Proof.
  split; split.
  - unfold simulate_trial, uniform_low. simpl flt.
    rewrite Rltb_true by lra. reflexivity.
  - split; [|reflexivity]. intros [x [Hx Hpos]]. injection Hx as <-. lra.
  - unfold simulate_trial, uniform_low. simpl flt.
    rewrite Rltb_false by lra.
    cbv beta iota delta [race_loop race_body fisnan].
    rewrite make_R_finite by (simpl; lia).
    rewrite bind_Returned. unfold rates. simpl.
    unfold fmin2. simpl. float_cmp. simpl. float_cmp. simpl. float_cmp.
    reflexivity.
  - split; [|reflexivity]. intros [x [Hx Hpos]]. injection Hx as <-. lra.
Qed.

(** C5, refuted on an input: subject 1 has no estimate for condition B and
    [predict] raises ValueError, the exception that it also raises for a
    table with one item whose estimates are all in place; the failure is
    not a condition of its own. *)
Lemma missing_estimate_counterexample :
  predict nat uniform_low choice_first (invgauss_const (Fin 1)) 10
          unmatched_model 1 (Fin 1) (Fin (1/20)) true 0%nat =
  Raised ValueError /\
  predict nat uniform_low choice_first (invgauss_const (Fin 1)) 10
          one_item_model 1 (Fin 1) (Fin 0) true 0%nat =
  Raised ValueError.
Proof.
  split.
  - reflexivity.
  - unfold predict, predict_row, simulate_trial. simpl. float_cmp.
    reflexivity.
Qed.

Lemma missing_estimate_raises_witness :
  lookup_failure (trial_inputs unmatched_model (observed 1 0 2 "B")) /\
  forall fuel n_repeats boundary error_weight verbose g table g',
    predict nat uniform_low choice_first (invgauss_const (Fin 1))
            fuel unmatched_model n_repeats boundary error_weight verbose g <>
    Returned (table, g').
Proof.
  apply (missing_estimate_raises nat uniform_low choice_first
           (invgauss_const (Fin 1)) unmatched_model (observed 1 0 2 "B")
           "v"%string "condition"%string (Int 1) (Str "B")).
  - simpl. left. reflexivity.
  - reflexivity.
  - simpl. left. reflexivity.
  - reflexivity.
  - reflexivity.
  - intros e [<-|[]] sc dc Hs Heq Hd. simpl in Hd. injection Hd as <-.
    reflexivity.
Defined.

(** * Further properties of the simulation code *)

(** ** make_R: shape of the result and of the inputs *)

Lemma mapM_length {A B} (f : A -> outcome B) (l : list A) (bs : list B) :
  mapM f l = Returned bs -> length bs = length l.
Proof.
  intros H. apply mapM_Forall2 in H.
  symmetry. exact (Forall2_length_eq _ _ _ H).
Qed.

Lemma make_R_length (v tau gamma : float) (values gaze Rs : list float) :
  make_R v tau gamma values gaze = Returned Rs ->
  length Rs = length values.
Proof.
  unfold make_R. intros H.
  bind_inv H gv Egv. bind_inv H ugv Eugv. bind_inv H A EA.
  bind_inv H R_star ER. injection H as <-.
  rewrite length_map, (mapM_length _ _ _ ER), length_seq. reflexivity.
Qed.

(** X1: whenever [make_R] returns, it returns one rate for each item of
    [values], whatever the floats it was given (the gaze may have been
    broadcast), and the race then draws one first-passage time for each
    item. *)
Theorem one_rate_per_item (rng : Type)
        (invgauss_rvs : float -> float -> rng -> float * rng)
        (v tau gamma : float) (values gaze Rs : list float) :
  make_R v tau gamma values gaze = Returned Rs ->
  length Rs = length values /\
  forall boundary s g,
    length (fst (sample_FPTs rng invgauss_rvs boundary s Rs g)) =
    length values.
Proof.
  intros H. pose proof (make_R_length _ _ _ _ _ _ H) as Hlen.
  split; [exact Hlen|]. intros boundary s g.
  rewrite sample_FPTs_length. exact Hlen.
Qed.

Lemma one_rate_per_item_witness :
  length (map Fin (rates 1 (1/2) (1/5) [5; 3] [4/5; 1/5])) = 2%nat /\
  forall boundary s g,
    length (fst (sample_FPTs nat (invgauss_const (Fin 1)) boundary s
                             (map Fin (rates 1 (1/2) (1/5) [5; 3] [4/5; 1/5]))
                             g)) = 2%nat.
Proof.
  apply (one_rate_per_item nat (invgauss_const (Fin 1))
                           (Fin 1) (Fin (1/2)) (Fin (1/5)) (map Fin [5; 3])
                           (map Fin [4/5; 1/5])).
  apply make_R_finite; simpl; lia.
Defined.

(** X2: value and gaze arrays of different lengths, neither of length 1,
    cannot be broadcast: [make_R] raises ValueError. *)
Theorem make_R_shape_mismatch (v tau gamma : float) (values gaze : list float) :
  length gaze <> length values ->
  length gaze <> 1%nat -> length values <> 1%nat ->
  make_R v tau gamma values gaze = Raised ValueError.
Proof.
  intros Hne Hg Hv. unfold make_R, np_binop.
  apply Nat.eqb_neq in Hne. rewrite Hne.
  destruct gaze as [|g [|g' gaze]]; simpl in *; try lia;
    destruct values as [|x [|x' values]]; simpl in *; try lia;
      try discriminate; reflexivity.
Qed.

Lemma make_R_shape_mismatch_witness :
  make_R (Fin 1) (Fin 1) (Fin 1) [Fin 1; Fin 2; Fin 3] [Fin 1; Fin 2] =
  Raised ValueError.
Proof.
  apply make_R_shape_mismatch; simpl; lia.
Defined.

Lemma zip_with_repeat_l {A B C} (f : A -> B -> C) (a : A) (l : list B) :
  zip_with f (repeat a (length l)) l = map (f a) l.
Proof.
  induction l as [|b l IH]; simpl; [reflexivity|]. rewrite IH. reflexivity.
Qed.

Lemma np_binop_broadcast_l (f : float -> float -> float) (a : float)
      (l : list float) :
  np_binop f [a] l = np_binop f (repeat a (length l)) l.
Proof.
  unfold np_binop. rewrite repeat_length, Nat.eqb_refl, zip_with_repeat_l.
  destruct l as [|b [|b' l]]; reflexivity.
Qed.

(** X3: a gaze array of length 1 is broadcast: [make_R] treats it as the
    same gaze for every item. *)
Theorem make_R_broadcast_gaze (v tau gamma g : float) (values : list float) :
  make_R v tau gamma values [g] =
  make_R v tau gamma values (repeat g (length values)).
Proof.
  unfold make_R.
  rewrite (np_binop_broadcast_l fmul g values).
  change (map (fun g0 => fmul (fsub (Fin 1) g0) gamma) [g])
    with [fmul (fsub (Fin 1) g) gamma].
  rewrite (np_binop_broadcast_l fmul (fmul (fsub (Fin 1) g) gamma) values).
  rewrite map_repeat. reflexivity.
Qed.

(** ** simulate_trial: the race and its winner *)

Lemma fold_fmin2_NaN (t : list float) : fold_left fmin2 t NaN = NaN.
Proof. induction t as [|x t IH]; simpl; [reflexivity | exact IH]. Qed.

Lemma fmin2_not_nan (a b : float) :
  fisnan (fmin2 a b) = false -> fisnan a = false /\ fisnan b = false.
Proof.
  unfold fmin2. destruct a, b; simpl; try discriminate; auto.
Qed.

Lemma fisnan_true (a : float) : fisnan a = true -> a = NaN.
Proof. destruct a; simpl; try discriminate. reflexivity. Qed.

Lemma argmin_from_bound (l : list float) :
  forall bi b i, (bi < i)%nat -> (argmin_from bi b i l < i + length l)%nat.
Proof.
  induction l as [|x t IH]; intros bi b i H; simpl; [lia|].
  destruct (fisnan b); [lia|].
  destruct (fisnan x || flt x b).
  - specialize (IH i x (S i) ltac:(lia)). lia.
  - specialize (IH bi b (S i) ltac:(lia)). lia.
Qed.

Lemma np_argmin_bound (l : list float) (c : nat) :
  np_argmin l = Returned c -> (c < length l)%nat.
Proof.
  destruct l as [|x t]; simpl; [discriminate|].
  intros H. injection H as <-.
  pose proof (argmin_from_bound t 0%nat x 1%nat ltac:(lia)). lia.
Qed.

(** The index that [np.argmin] returns holds the value that [np.min]
    returns, when that value is not nan. *)
Lemma argmin_from_nth (full : list float) (l : list float) :
  forall bi b i,
    fisnan (fold_left fmin2 l b) = false ->
    nth bi full NaN = b ->
    (forall k, (k < length l)%nat -> nth (i + k) full NaN = nth k l NaN) ->
    nth (argmin_from bi b i l) full NaN = fold_left fmin2 l b.
Proof.
  induction l as [|x t IH]; intros bi b i Hnan Hb Hl; simpl in *;
    [exact Hb|].
  assert (Hm : fisnan (fmin2 b x) = false).
  { destruct (fisnan (fmin2 b x)) eqn:E; [|reflexivity].
    apply fisnan_true in E. rewrite E, fold_fmin2_NaN in Hnan.
    discriminate. }
  destruct (fmin2_not_nan b x Hm) as [Hbn Hxn].
  rewrite Hbn, Hxn. simpl.
  assert (Hshift : forall k, (k < length t)%nat ->
                             nth (S i + k) full NaN = nth k t NaN).
  { intros k Hk. specialize (Hl (S k) ltac:(lia)). simpl in Hl.
    rewrite <- Hl. f_equal. lia. }
  unfold fmin2 in *. rewrite Hbn, Hxn in *.
  destruct (flt x b).
  - apply IH; try assumption.
    specialize (Hl 0%nat ltac:(lia)). simpl in Hl.
    rewrite Nat.add_0_r in Hl. exact Hl.
  - apply IH; assumption.
Qed.

Lemma np_argmin_min (l : list float) (c : nat) (m : float) :
  np_argmin l = Returned c -> np_min l = Returned m -> fisnan m = false ->
  nth c l NaN = m.
Proof.
  destruct l as [|x t]; simpl; [discriminate|].
  intros Hc Hm Hnan. injection Hc as <-. injection Hm as <-.
  apply (argmin_from_nth (x :: t) t 0%nat x 1%nat); try assumption;
    reflexivity.
Qed.

Section TrialProperties.

Variable rng : Type.
Variable random_uniform : float -> float -> rng -> float * rng.
Variable random_choice : nat -> rng -> nat * rng.
Variable invgauss_rvs : float -> float -> rng -> float * rng.

Let sample := sample_FPTs rng invgauss_rvs.
Let loop := race_loop rng invgauss_rvs.
Let trial := simulate_trial rng random_uniform random_choice invgauss_rvs.

(** What the loop has done when it returns, for any floats. *)
Lemma race_loop_inv (v gamma s tau t0 : float) (values gaze : list float)
      (boundary : float) :
  forall fuel choice0 g choice rt g',
    loop fuel (v, gamma, s, tau, t0) values gaze boundary choice0 NaN g =
    Returned (choice, rt, g') ->
    exists (Rs FPTs : list float) (m : float) (c : nat) (g0 : rng),
      make_R v tau gamma values gaze = Returned Rs /\
      sample boundary s Rs g0 = (FPTs, g') /\
      np_min FPTs = Returned m /\ rejected m = false /\
      np_argmin FPTs = Returned c /\
      choice = Idx c /\ rt = fadd m t0 /\ fisnan rt = false.
Proof.
  unfold loop, sample.
  induction fuel as [|fuel IH]; intros choice0 g choice rt g' H; simpl in H;
    [discriminate|].
  unfold race_body in H.
  destruct (make_R v tau gamma values gaze) as [Rs| |] eqn:HR;
    simpl in H; try discriminate.
  destruct (sample_FPTs rng invgauss_rvs boundary s Rs g) as [FPTs g1] eqn:HS.
  destruct (np_min FPTs) as [x| |] eqn:Hmin; simpl in H; try discriminate.
  fold (rejected x) in H.
  destruct (rejected x) eqn:Hrej.
  - simpl in H. apply IH in H. exact H.
  - destruct (np_argmin FPTs) as [c| |] eqn:Harg; simpl in H;
      try discriminate.
    destruct (fisnan (fadd x t0)) eqn:Hnan.
    + apply fisnan_true in Hnan. rewrite Hnan in H. apply IH in H. exact H.
    + pose proof (race_loop_done rng invgauss_rvs fuel (v, gamma, s, tau, t0)
                                 values gaze boundary (Idx c) (fadd x t0) g1
                                 Hnan) as Hdone.
      rewrite Hdone in H. injection H as <- <- <-.
      exists Rs, FPTs, x, c, g. repeat split; try assumption; reflexivity.
Qed.

Lemma race_branch_inv (v gamma s tau t0 : float) (values gaze : list float)
      (boundary error_weight : float) (error_range : float * float)
      (fuel : nat) (g : rng) (choice : choice_val) (rt : float) (g' : rng) :
  flt (fst (random_uniform (Fin 0) (Fin 1) g)) error_weight = false ->
  trial fuel (v, gamma, s, tau, t0) values gaze boundary error_weight
        error_range g = Returned (choice, rt, g') ->
  exists (Rs FPTs : list float) (m : float) (c : nat) (g0 : rng),
    make_R v tau gamma values gaze = Returned Rs /\
    sample boundary s Rs g0 = (FPTs, g') /\
    np_min FPTs = Returned m /\ rejected m = false /\
    np_argmin FPTs = Returned c /\
    choice = Idx c /\ rt = fadd m t0 /\ fisnan rt = false.
Proof.
  unfold trial, simulate_trial. intros Hrace H.
  destruct (random_uniform (Fin 0) (Fin 1) g) as [u g1]. simpl in Hrace.
  rewrite Hrace in H. apply race_loop_inv in H. exact H.
Qed.

Lemma race_choice_bound (v tau gamma boundary s : float)
      (values gaze Rs FPTs : list float) (g0 g' : rng) (c : nat) :
  make_R v tau gamma values gaze = Returned Rs ->
  sample boundary s Rs g0 = (FPTs, g') ->
  np_argmin FPTs = Returned c ->
  (c < length values)%nat.
Proof.
  intros HR HS Harg.
  pose proof (np_argmin_bound FPTs c Harg) as Hc.
  pose proof (sample_FPTs_length rng invgauss_rvs boundary s Rs g0) as Hlen.
  unfold sample in HS. rewrite HS in Hlen. simpl in Hlen.
  rewrite Hlen, (make_R_length _ _ _ _ _ _ HR) in Hc. exact Hc.
Qed.

(** X8: in the race, the chosen item holds the smallest first-passage
    time of the last pass: rt is that time plus t0, for any floats. *)
Theorem race_winner (v gamma s tau t0 : float) (values gaze : list float)
        (boundary error_weight : float) (error_range : float * float)
        (fuel : nat) (g : rng) (choice : choice_val) (rt : float) (g' : rng) :
  flt (fst (random_uniform (Fin 0) (Fin 1) g)) error_weight = false ->
  trial fuel (v, gamma, s, tau, t0) values gaze boundary error_weight
        error_range g = Returned (choice, rt, g') ->
  exists (Rs FPTs : list float) (c : nat) (g0 : rng),
    make_R v tau gamma values gaze = Returned Rs /\
    sample boundary s Rs g0 = (FPTs, g') /\
    choice = Idx c /\ (c < length values)%nat /\
    np_min FPTs = Returned (nth c FPTs NaN) /\
    rejected (nth c FPTs NaN) = false /\
    rt = fadd (nth c FPTs NaN) t0 /\ fisnan rt = false.
Proof.
  intros Hrace H.
  apply (race_branch_inv v gamma s tau t0 values gaze boundary error_weight
                         error_range fuel g choice rt g' Hrace) in H.
  destruct H as [Rs [FPTs [m [c [g0 [HR [HS [Hmin [Hrej [Harg [-> [-> Hn]]]]]]]]]]]].
  assert (Hm : fisnan m = false).
  { unfold rejected in Hrej. destruct m; simpl in *; try reflexivity.
    discriminate. }
  pose proof (np_argmin_min FPTs c m Harg Hmin Hm) as Hnth.
  exists Rs, FPTs, c, g0. rewrite Hnth.
  repeat split; try assumption; try reflexivity.
  exact (race_choice_bound _ _ _ _ _ _ _ _ _ _ _ _ HR HS Harg).
Qed.

(** X9: with t0 = nan the race never returns: every pass ends with
    rt = nan, which the loop takes for a rejected draw. *)
Theorem race_nan_t0 (v gamma s tau : float) (values gaze : list float)
        (boundary error_weight : float) (error_range : float * float)
        (fuel : nat) (g : rng) :
  flt (fst (random_uniform (Fin 0) (Fin 1) g)) error_weight = false ->
  forall r, trial fuel (v, gamma, s, tau, NaN) values gaze boundary
                  error_weight error_range g <> Returned r.
Proof.
  intros Hrace [[choice rt] g'] H.
  apply (race_branch_inv v gamma s tau NaN values gaze boundary error_weight
                         error_range fuel g choice rt g' Hrace) in H.
  destruct H as [Rs [FPTs [m [c [g0 [_ [_ [_ [_ [_ [_ [-> Hn]]]]]]]]]]]].
  destruct m; discriminate.
Qed.

(** X10: with no item, [simulate_trial] raises ValueError in both
    branches: [np.random.choice(0)] in the error branch, [np.min] of the
    empty array of times (or the broadcast of [make_R]) in the race. *)
Theorem simulate_trial_no_item (p : parameters) (gaze : list float)
        (boundary error_weight : float) (error_range : float * float)
        (fuel : nat) (g : rng) :
  trial (S fuel) p [] gaze boundary error_weight error_range g =
  Raised ValueError.
Proof.
  unfold trial, simulate_trial. destruct p as [[[[v gamma] s] tau] t0].
  destruct (random_uniform (Fin 0) (Fin 1) g) as [u g1].
  destruct (flt u error_weight).
  - destruct (random_uniform (fst error_range) (snd error_range) g1).
    reflexivity.
  - destruct gaze as [|x [|y gaze]]; reflexivity.
Qed.

(** [np.random.choice(n)] answers an index below n. *)
Hypothesis choice_in_range :
  forall (n : nat) (g : rng), (0 < n)%nat -> (fst (random_choice n g) < n)%nat.

(** X11: whatever the floats, the choice that [simulate_trial] returns is
    an item index below the number of items, never the nan marker. *)
Theorem simulate_trial_choice_index (p : parameters)
        (values gaze : list float) (boundary error_weight : float)
        (error_range : float * float) (fuel : nat) (g : rng)
        (choice : choice_val) (rt : float) (g' : rng) :
  trial fuel p values gaze boundary error_weight error_range g =
  Returned (choice, rt, g') ->
  exists c, choice = Idx c /\ (c < length values)%nat.
Proof.
  destruct p as [[[[v gamma] s] tau] t0]. intros H.
  destruct (flt (fst (random_uniform (Fin 0) (Fin 1) g)) error_weight) eqn:Hu.
  - unfold trial, simulate_trial in H.
    destruct (random_uniform (Fin 0) (Fin 1) g) as [u g1]. simpl in Hu.
    rewrite Hu in H.
    destruct (random_uniform (fst error_range) (snd error_range) g1)
      as [rt0 g2].
    destruct (length values =? 0)%nat eqn:Hn; [discriminate|].
    apply Nat.eqb_neq in Hn.
    pose proof (choice_in_range (length values) g2 ltac:(lia)) as Hc.
    destruct (random_choice (length values) g2) as [c g3].
    injection H as <- _ _. exists c. split; [reflexivity | exact Hc].
  - apply (race_branch_inv v gamma s tau t0 values gaze boundary error_weight
                           error_range fuel g choice rt g' Hu) in H.
    destruct H as [Rs [FPTs [m [c [g0 [HR [HS [_ [_ [Harg [-> _]]]]]]]]]]].
    exists c. split; [reflexivity|].
    exact (race_choice_bound _ _ _ _ _ _ _ _ _ _ _ _ HR HS Harg).
Qed.

End TrialProperties.

(** ** simulate_trial: the arguments of the first-passage sampler *)

Section RaceDraws.

Variable rng : Type.
Variable random_uniform : float -> float -> rng -> float * rng.
Variable random_choice : nat -> rng -> nat * rng.
Variable invgauss_rvs : float -> float -> rng -> float * rng.

Let sample := sample_FPTs rng invgauss_rvs.
Let body := race_body rng invgauss_rvs.
Let loop := race_loop rng invgauss_rvs.
Let trial := simulate_trial rng random_uniform random_choice invgauss_rvs.

(** The pass that ends the loop. *)
Lemma race_loop_last_pass (p : parameters) (values gaze : list float)
      (boundary : float) :
  forall fuel choice0 g choice rt g',
    loop fuel p values gaze boundary choice0 NaN g =
    Returned (choice, rt, g') ->
    exists g0, body p values gaze boundary g0 = Returned (choice, rt, g') /\
               fisnan rt = false.
Proof.
  unfold loop, body.
  induction fuel as [|fuel IH]; intros choice0 g choice rt g' H; simpl in H;
    [discriminate|].
  destruct (race_body rng invgauss_rvs p values gaze boundary g)
    as [[[c1 rt1] g1]| |] eqn:Hbody; cbn [bind] in H; try discriminate.
  destruct (fisnan rt1) eqn:Hnan.
  - apply fisnan_true in Hnan. subst rt1. apply IH in H. exact H.
  - rewrite (race_loop_done rng invgauss_rvs fuel p values gaze boundary
                            c1 rt1 g1 Hnan) in H.
    injection H as <- <- <-. exists g. split; [exact Hbody | exact Hnan].
Qed.

(** C4: in every pass of the race over the rates Rs of [make_R], the
    first-passage time of item i is the sampler's answer to the mean
    mu / lambda and the scale lambda, with mu = boundary / Rs_i and
    lambda = (boundary / s)^2, in the generator state left by the draws of
    the items before i; the pass decides on the minimum of these times, and
    a trial that returns from the race returns the outcome of such a
    pass. *)
Theorem race_draw_arguments (v gamma s tau t0 : float)
        (values gaze : list float) (boundary : float) (Rs : list float) :
  make_R v tau gamma values gaze = Returned Rs ->
  let lambda := fmul (fdiv boundary s) (fdiv boundary s) in
  (forall g,
      let FPTs := fst (sample boundary s Rs g) in
      length FPTs = length values /\
      (forall i, (i < length values)%nat ->
         nth i FPTs NaN =
         fst (invgauss_rvs (fdiv (fdiv boundary (nth i Rs NaN)) lambda) lambda
                           (snd (sample boundary s (firstn i Rs) g)))) /\
      body (v, gamma, s, tau, t0) values gaze boundary g =
      (m <- np_min FPTs ;;
       if rejected m then Returned (ChoiceNaN, NaN, snd (sample boundary s Rs g))
       else c <- np_argmin FPTs ;;
            Returned (Idx c, fadd m t0, snd (sample boundary s Rs g)))) /\
  (forall fuel error_weight error_range g choice rt g',
      flt (fst (random_uniform (Fin 0) (Fin 1) g)) error_weight = false ->
      trial fuel (v, gamma, s, tau, t0) values gaze boundary error_weight
            error_range g = Returned (choice, rt, g') ->
      exists g0,
        body (v, gamma, s, tau, t0) values gaze boundary g0 =
        Returned (choice, rt, g') /\ fisnan rt = false).
Proof.
  intros HR lambda. split.
  - intros g FPTs.
    pose proof (make_R_length _ _ _ _ _ _ HR) as Hlen.
    split; [|split].
    + unfold FPTs, sample. rewrite sample_FPTs_length. exact Hlen.
    + intros i Hi. rewrite <- Hlen in Hi.
      destruct (sample_FPTs_arguments rng invgauss_rvs boundary s Rs g i Hi)
        as [gi [-> Hnth]].
      exact Hnth.
    + unfold body, race_body, FPTs, sample, rejected.
      rewrite HR, bind_Returned.
      destruct (sample_FPTs rng invgauss_rvs boundary s Rs g) as [xs g1].
      reflexivity.
  - intros fuel error_weight error_range g choice rt g' Hrace H.
    unfold trial, simulate_trial in H.
    destruct (random_uniform (Fin 0) (Fin 1) g) as [u g1]. simpl in Hrace.
    rewrite Hrace in H.
    exact (race_loop_last_pass _ _ _ _ _ _ _ _ _ _ H).
Qed.

End RaceDraws.

Lemma make_R_equal_items (v tau gamma x g : R) :
  make_R (Fin v) (Fin tau) (Fin gamma) (map Fin [x; x]) (map Fin [g; g]) =
  Returned [Fin (v / 2); Fin (v / 2)].
Proof.
  rewrite make_R_finite by (simpl; lia).
  unfold rates, weighted, max_others, others. simpl.
  assert (E : forall a : R, v / (1 + exp (- tau * (a + - a))) = v / 2).
  { intros a. replace (- tau * (a + - a)) with 0 by ring.
    rewrite exp_0. replace (1 + 1) with 2 by lra. reflexivity. }
  rewrite !E. reflexivity.
Qed.

(** A run on [invgauss_mean]: the rt is the mean argument of the first
    draw, (boundary / R_0) / (boundary / s)^2 = (1 / (1/2)) / 25, plus t0;
    with the two arguments exchanged it would be 25 + t0. *)
Lemma race_draw_arguments_run :
  simulate_trial nat uniform_low choice_first invgauss_mean 1
                 (Fin 1, Fin (1/5), Fin (1/5), Fin (1/2), Fin 300)
                 (map Fin [4; 4]) (map Fin [1/2; 1/2])
                 (Fin 1) (Fin 0) (Fin 0, Fin 5) 0%nat =
  Returned (Idx 0,
            Fin (1 / (1 / 2) / (1 / (1/5) * (1 / (1/5))) + 300), 3%nat).
Proof.
  unfold simulate_trial, uniform_low. simpl flt.
  rewrite Rltb_false by lra.
  cbv beta iota delta [race_loop race_body fisnan].
  rewrite make_R_equal_items, bind_Returned.
  unfold invgauss_mean.
  do 6 (simpl; unfold fmin2; float_cmp).
  reflexivity.
Qed.

Lemma race_draw_arguments_witness :
  simulate_trial nat uniform_low choice_first invgauss_mean 1
                 (Fin 1, Fin (1/5), Fin (1/5), Fin (1/2), Fin 300)
                 (map Fin [4; 4]) (map Fin [1/2; 1/2])
                 (Fin 1) (Fin 0) (Fin 0, Fin 5) 0%nat =
  Returned (Idx 0,
            Fin (1 / (1 / 2) / (1 / (1/5) * (1 / (1/5))) + 300), 3%nat) /\
  (let lambda := fmul (fdiv (Fin 1) (Fin (1/5))) (fdiv (Fin 1) (Fin (1/5))) in
   (forall g,
       let FPTs := fst (sample_FPTs nat invgauss_mean (Fin 1) (Fin (1/5))
                                    [Fin (1/2); Fin (1/2)] g) in
       length FPTs = 2%nat /\
       (forall i, (i < 2)%nat ->
          nth i FPTs NaN =
          fst (invgauss_mean
                 (fdiv (fdiv (Fin 1) (nth i [Fin (1/2); Fin (1/2)] NaN)) lambda)
                 lambda
                 (snd (sample_FPTs nat invgauss_mean (Fin 1) (Fin (1/5))
                                   (firstn i [Fin (1/2); Fin (1/2)]) g)))) /\
       race_body nat invgauss_mean
                 (Fin 1, Fin (1/5), Fin (1/5), Fin (1/2), Fin 300)
                 (map Fin [4; 4]) (map Fin [1/2; 1/2]) (Fin 1) g =
       (m <- np_min FPTs ;;
        if rejected m
        then Returned (ChoiceNaN, NaN,
                       snd (sample_FPTs nat invgauss_mean (Fin 1) (Fin (1/5))
                                        [Fin (1/2); Fin (1/2)] g))
        else c <- np_argmin FPTs ;;
             Returned (Idx c, fadd m (Fin 300),
                       snd (sample_FPTs nat invgauss_mean (Fin 1) (Fin (1/5))
                                        [Fin (1/2); Fin (1/2)] g)))) /\
   (forall fuel error_weight error_range g choice rt g',
       flt (fst (uniform_low (Fin 0) (Fin 1) g)) error_weight = false ->
       simulate_trial nat uniform_low choice_first invgauss_mean fuel
                      (Fin 1, Fin (1/5), Fin (1/5), Fin (1/2), Fin 300)
                      (map Fin [4; 4]) (map Fin [1/2; 1/2]) (Fin 1)
                      error_weight error_range g = Returned (choice, rt, g') ->
       exists g0,
         race_body nat invgauss_mean
                   (Fin 1, Fin (1/5), Fin (1/5), Fin (1/2), Fin 300)
                   (map Fin [4; 4]) (map Fin [1/2; 1/2]) (Fin 1) g0 =
         Returned (choice, rt, g') /\ fisnan rt = false)).
Proof.
  split; [exact race_draw_arguments_run|].
  apply (race_draw_arguments nat uniform_low choice_first invgauss_mean
                             (Fin 1) (Fin (1/5)) (Fin (1/5)) (Fin (1/2))
                             (Fin 300) (map Fin [4; 4]) (map Fin [1/2; 1/2])
                             (Fin 1) [Fin (1/2); Fin (1/2)]).
  apply make_R_equal_items.
Defined.

Lemma uniform_low_race :
  flt (fst (uniform_low (Fin 0) (Fin 1) 0%nat)) (Fin 0) = false.
Proof. simpl. apply Rltb_false. lra. Qed.

Lemma race_winner_witness :
  exists (Rs FPTs : list float) (c : nat) (g0 : nat),
    make_R (Fin 1) (Fin (1/2)) (Fin (1/5)) (map Fin [5; 3])
           (map Fin [4/5; 1/5]) = Returned Rs /\
    sample_FPTs nat (invgauss_const (Fin 1)) (Fin 1) (Fin (1/5)) Rs g0 =
    (FPTs, 3%nat) /\
    Idx 0 = Idx c /\ (c < 2)%nat /\
    np_min FPTs = Returned (nth c FPTs NaN) /\
    rejected (nth c FPTs NaN) = false /\
    Fin (1 + 300) = fadd (nth c FPTs NaN) (Fin 300) /\
    fisnan (Fin (1 + 300)) = false.
Proof.
  apply (race_winner nat uniform_low choice_first (invgauss_const (Fin 1))
                     (Fin 1) (Fin (1/5)) (Fin (1/5)) (Fin (1/2)) (Fin 300)
                     (map Fin [5; 3]) (map Fin [4/5; 1/5]) (Fin 1) (Fin 0)
                     (Fin 0, Fin 5) 1%nat 0%nat (Idx 0) (Fin (1 + 300)) 3%nat).
  - exact uniform_low_race.
  - exact race_rt_valid_run.
Defined.

Lemma race_nan_t0_witness :
  ~ exists r,
      simulate_trial nat uniform_low choice_first (invgauss_const (Fin 1)) 1000
                     (Fin 1, Fin (1/5), Fin (1/5), Fin (1/2), NaN)
                     (map Fin [5; 3]) (map Fin [4/5; 1/5])
                     (Fin 1) (Fin 0) (Fin 0, Fin 5) 0%nat = Returned r.
Proof.
  intros [r H].
  exact (race_nan_t0 nat uniform_low choice_first (invgauss_const (Fin 1))
                     (Fin 1) (Fin (1/5)) (Fin (1/5)) (Fin (1/2))
                     (map Fin [5; 3]) (map Fin [4/5; 1/5]) (Fin 1) (Fin 0)
                     (Fin 0, Fin 5) 1000%nat 0%nat uniform_low_race r H).
Defined.

Lemma choice_first_in_range (n : nat) (g : nat) :
  (0 < n)%nat -> (fst (choice_first n g) < n)%nat.
Proof. intros H. exact H. Qed.

Lemma simulate_trial_choice_index_witness :
  exists c, Idx 0 = Idx c /\ (c < 2)%nat.
Proof.
  apply (simulate_trial_choice_index
           nat uniform_low choice_first (invgauss_const (Fin 1))
           choice_first_in_range
           (Fin 1, Fin (1/5), Fin (1/5), Fin (1/2), Fin 300)
           (map Fin [5; 3]) (map Fin [4/5; 1/5]) (Fin 1) (Fin 0)
           (Fin 0, Fin 5) 1%nat 0%nat (Idx 0) (Fin (1 + 300)) 3%nat).
  exact race_rt_valid_run.
Defined.

(** ** simulate_subject: the table it builds *)

Lemma nat_str_inj (i j : nat) : nat_str i = nat_str j -> i = j.
Proof.
  unfold nat_str. intros H. apply Unsigned.to_uint_inj.
  assert (E : Some (Nat.to_uint i) = Some (Nat.to_uint j))
    by (rewrite <- !NilEmpty.usu, H; reflexivity).
  injection E as E. exact E.
Qed.

Lemma value_col_inj (i j : nat) : value_col i = value_col j -> i = j.
Proof.
  unfold value_col. simpl. intros H. apply nat_str_inj.
  injection H as H. exact H.
Qed.

Lemma gaze_col_inj (i j : nat) : gaze_col i = gaze_col j -> i = j.
Proof.
  unfold gaze_col. simpl. intros H. apply nat_str_inj.
  injection H as H. exact H.
Qed.

Lemma value_col_gaze_col (i j : nat) : value_col i <> gaze_col j.
Proof. unfold value_col, gaze_col. simpl. discriminate. Qed.

Lemma nth_error_zip_with {A B C} (f : A -> B -> C) (l : list A) (m : list B)
      (k : nat) (a : A) (b : B) :
  nth_error l k = Some a -> nth_error m k = Some b ->
  nth_error (zip_with f l m) k = Some (f a b).
Proof.
  revert m k. induction l as [|x l IH]; intros [|y m] [|k] Ha Hb;
    simpl in *; try discriminate.
  - injection Ha as <-. injection Hb as <-. reflexivity.
  - apply IH; assumption.
Qed.

Lemma df_set_col_nth (df df' : DataFrame) (lbl : string) (a : list cell) :
  df_set_col df lbl a = Returned df' ->
  length df' = length df /\
  forall k r, nth_error df k = Some r ->
    exists c, nth_error a k = Some c /\
              nth_error df' k = Some (row_set r lbl c).
Proof.
  unfold df_set_col.
  destruct (length a =? length df)%nat eqn:E; [|discriminate].
  apply Nat.eqb_eq in E. intros H. injection H as <-.
  split; [rewrite zip_with_length; congruence|].
  intros k r Hk.
  destruct (nth_error a k) as [c|] eqn:Hc.
  - exists c. split; [reflexivity|].
    apply (nth_error_zip_with (fun r0 c0 => row_set r0 lbl c0));
      assumption.
  - apply nth_error_None in Hc.
    assert (k < length df)%nat by (apply nth_error_Some; congruence). lia.
Qed.

Lemma np_repeat_nth {A} (a : list A) (n t r : nat) (x : A) :
  nth_error a t = Some x -> (r < n)%nat ->
  nth_error (np_repeat a n) (t * n + r) = Some x.
Proof.
  intros Ht Hr. unfold np_repeat. rewrite flat_map_concat_map.
  rewrite (nth_error_concat_uniform n _ t r (repeat x n)).
  - apply nth_error_repeat. exact Hr.
  - apply Forall_map, Forall_forall. intros y _. apply repeat_length.
  - rewrite nth_error_map, Ht. reflexivity.
  - exact Hr.
Qed.

Lemma trial_repeats_nth (n_trials n_repeats t r : nat) :
  (t < n_trials)%nat -> (r < n_repeats)%nat ->
  nth_error (trial_repeats n_trials n_repeats) (t * n_repeats + r) =
  Some (t, r).
Proof.
  intros Ht Hr. unfold trial_repeats. rewrite flat_map_concat_map.
  rewrite (nth_error_concat_uniform n_repeats _ t r
             (map (pair t) (seq 0 n_repeats))).
  - rewrite nth_error_map, nth_error_seq.
    apply Nat.ltb_lt in Hr. rewrite Hr. reflexivity.
  - apply Forall_map, Forall_forall. intros y _.
    rewrite length_map, length_seq. reflexivity.
  - rewrite nth_error_map, nth_error_seq.
    apply Nat.ltb_lt in Ht. rewrite Ht. reflexivity.
  - exact Hr.
Qed.

Lemma mat_col_nth (m : matrix) (i t : nat) (col row : list float) :
  mat_col m i = Returned col -> nth_error m t = Some row ->
  exists x, np_get row i = Returned x /\ nth_error col t = Some x.
Proof.
  unfold mat_col. intros H Ht. apply mapM_Forall2 in H.
  destruct (Forall2_nth_error _ _ _ t row H Ht) as [x [Hx Hget]].
  exists x. split; assumption.
Qed.

(** The item columns that [add_item_columns] writes, and the labels it
    leaves alone. *)
Lemma add_item_columns_spec (values gaze : matrix) (n_repeats : nat) :
  forall items df df',
    NoDup items ->
    add_item_columns values gaze n_repeats items df = Returned df' ->
    length df' = length df /\
    forall k r, nth_error df k = Some r ->
      exists r', nth_error df' k = Some r' /\
        (forall lbl,
            (forall i, In i items -> lbl <> value_col i /\ lbl <> gaze_col i) ->
            row_lookup r' lbl = row_lookup r lbl) /\
        (forall i, In i items ->
           exists vc gc x y,
             mat_col values i = Returned vc /\
             mat_col gaze i = Returned gc /\
             nth_error (np_repeat vc n_repeats) k = Some x /\
             nth_error (np_repeat gc n_repeats) k = Some y /\
             row_lookup r' (value_col i) = Some (Float x) /\
             row_lookup r' (gaze_col i) = Some (Float y)).
Proof.
  induction items as [|i items IH]; intros df df' Hnd H; simpl in H.
  - injection H as <-. split; [reflexivity|].
    intros k r Hk. exists r. split; [exact Hk|].
    split; [reflexivity | intros i []].
  - inversion Hnd as [|? ? Hnotin Hnd']; subst.
    bind_inv H vc Evc. bind_inv H df1 Hset1. bind_inv H gc Egc.
    bind_inv H df2 Hset2.
    destruct (df_set_col_nth _ _ _ _ Hset1) as [Hlen1 Hrow1].
    destruct (df_set_col_nth _ _ _ _ Hset2) as [Hlen2 Hrow2].
    destruct (IH df2 df' Hnd' H) as [Hlen Hrows].
    split; [congruence|].
    intros k r Hk.
    destruct (Hrow1 k r Hk) as [c1 [Hc1 Hr1]].
    destruct (Hrow2 k _ Hr1) as [c2 [Hc2 Hr2]].
    destruct (Hrows k _ Hr2) as [r' [Hr' [Hframe Hitems]]].
    rewrite nth_error_map in Hc1, Hc2.
    destruct (nth_error (np_repeat vc n_repeats) k) as [x|] eqn:Hx;
      [|discriminate].
    destruct (nth_error (np_repeat gc n_repeats) k) as [y|] eqn:Hy;
      [|discriminate].
    injection Hc1 as <-. injection Hc2 as <-.
    exists r'. split; [exact Hr'|]. split.
    + intros lbl Hlbl. rewrite Hframe.
      * destruct (Hlbl i (or_introl eq_refl)) as [Hv Hg].
        rewrite !row_lookup_set_other by congruence. reflexivity.
      * intros j Hj. apply Hlbl. right. exact Hj.
    + intros j [<-|Hj]; [|apply Hitems; exact Hj].
      exists vc, gc, x, y. repeat split; try assumption.
      * rewrite Hframe.
        -- rewrite row_lookup_set_other
             by (intros E; symmetry in E; exact (value_col_gaze_col _ _ E)).
           apply row_lookup_set_same.
        -- intros j Hj. split.
           ++ intros E. apply value_col_inj in E. subst j. contradiction.
           ++ apply value_col_gaze_col.
      * rewrite Hframe.
        -- apply row_lookup_set_same.
        -- intros j Hj. split.
           ++ intros E. symmetry in E. exact (value_col_gaze_col _ _ E).
           ++ intros E. apply gaze_col_inj in E. subst j. contradiction.
Qed.

Lemma trial_repeats_length (n_trials n_repeats : nat) :
  length (trial_repeats n_trials n_repeats) = (n_trials * n_repeats)%nat.
Proof.
  unfold trial_repeats. rewrite flat_map_concat_map.
  rewrite (length_concat_uniform n_repeats).
  - rewrite length_map, length_seq. reflexivity.
  - apply Forall_map, Forall_forall. intros y _.
    rewrite length_map, length_seq. reflexivity.
Qed.

Lemma mat_row_nth (m : matrix) (t : nat) (r : list float) :
  mat_row m t = Returned r -> nth_error m t = Some r.
Proof.
  unfold mat_row. destruct (nth_error m t); [|discriminate].
  intros H. injection H as <-. reflexivity.
Qed.

Section SubjectProperties.

Variable rng : Type.
Variable random_uniform : float -> float -> rng -> float * rng.
Variable random_choice : nat -> rng -> nat * rng.
Variable invgauss_rvs : float -> float -> rng -> float * rng.

Let trial := simulate_trial rng random_uniform random_choice invgauss_rvs.
Let subject_run :=
  simulate_subject rng random_uniform random_choice invgauss_rvs.

(** X12: the table of [simulate_subject] has one row for each trial and
    repeat, in the order of the loops: the row at t * n_repeats + r holds
    the subject, t, r, the choice and the rt of one call of
    [simulate_trial] on values[t] and gaze[t], and in the columns
    item_value_i and gaze_i the entries values[t][i] and gaze[t][i]. *)
Theorem simulate_subject_table (fuel : nat) (p : parameters)
        (values gaze : matrix) (n_repeats : nat)
        (subject boundary error_weight : float)
        (error_range : float * float) (g : rng)
        (df : DataFrame) (g' : rng) :
  subject_run fuel p values gaze n_repeats subject boundary error_weight
              error_range g = Returned (df, g') ->
  length df = (length values * n_repeats)%nat /\
  forall t r, (t < length values)%nat -> (r < n_repeats)%nat ->
    exists row' vs gz choice rt g0 g1,
      nth_error df (t * n_repeats + r) = Some row' /\
      mat_row values t = Returned vs /\
      mat_row gaze t = Returned gz /\
      trial fuel p vs gz boundary error_weight error_range g0 =
      Returned (choice, rt, g1) /\
      row_lookup row' "subject" = Some (Float (fmul (Fin 1) subject)) /\
      row_lookup row' "trial" = Some (Float (Fin (INR t))) /\
      row_lookup row' "repeat" = Some (Float (Fin (INR r))) /\
      row_lookup row' "choice" = Some (Float (choice_float choice)) /\
      row_lookup row' "rt" = Some (Float rt) /\
      forall i, (i < length (hd [] values))%nat ->
        exists x y,
          np_get vs i = Returned x /\ np_get gz i = Returned y /\
          row_lookup row' (value_col i) = Some (Float x) /\
          row_lookup row' (gaze_col i) = Some (Float y).
Proof.
  unfold subject_run, simulate_subject. intros H.
  destruct (mapM_st rng _ _ g) as [[sims g1]| |] eqn:Hsims;
    cbn [bind] in H; try discriminate.
  bind_inv H df' Hcols. injection H as <- <-.
  apply mapM_st_Forall2 in Hsims.
  destruct (add_item_columns_spec _ _ _ _ _ _ (seq_NoDup _ 0) Hcols)
    as [Hlen Hrows].
  split.
  - rewrite Hlen, length_map, <- (Forall2_length_eq _ _ _ Hsims).
    apply trial_repeats_length.
  - intros t r Ht Hr.
    pose proof (trial_repeats_nth (length values) n_repeats t r Ht Hr) as Hk.
    destruct (Forall2_nth_error _ _ _ _ _ Hsims Hk)
      as [[[[t' r'] choice] rt] [Hsim [g0 [g2 Hbody]]]].
    bind_inv Hbody vs Evs. bind_inv Hbody gz Egz.
    destruct (simulate_trial rng random_uniform random_choice invgauss_rvs
                fuel p vs gz boundary error_weight error_range g0)
      as [[[c0 rt0] g3]| |] eqn:Htrial; cbn [bind] in Hbody;
      try discriminate.
    injection Hbody as <- <- <- <- <-.
    apply (map_nth_error
             (fun '(t, r, choice, rt) =>
                [("subject"%string, Float (fmul (Fin 1) subject));
                 ("trial"%string, Float (Fin (INR t)));
                 ("repeat"%string, Float (Fin (INR r)));
                 ("choice"%string, Float (choice_float choice));
                 ("rt"%string, Float rt)])) in Hsim.
    destruct (Hrows _ _ Hsim) as [row' [Hrow' [Hframe Hitems]]].
    exists row', vs, gz, c0, rt0, g0, g3.
    split; [exact Hrow'|].
    split; [first [exact Evs | reflexivity]|].
    split; [first [exact Egz | reflexivity]|].
    split; [first [exact Htrial | reflexivity]|].
    assert (Hfixed : forall lbl i, (forall s, lbl <> ("i" ++ s)%string) ->
                                   (forall s, lbl <> ("g" ++ s)%string) ->
                                   lbl <> value_col i /\ lbl <> gaze_col i).
    { intros lbl i Hi Hg. split; [apply Hi | apply Hg]. }
    repeat split;
      try (rewrite Hframe;
           [reflexivity
           | intros i _; apply Hfixed; intros s; simpl; discriminate]).
    intros i Hi.
    destruct (Hitems i) as [vc [gc [x [y [Hvc [Hgc [Hx [Hy [Hlv Hlg]]]]]]]]].
    { apply in_seq. lia. }
    destruct (mat_col_nth _ _ _ _ _ Hvc (mat_row_nth _ _ _ Evs))
      as [x' [Hgx Hnx]].
    destruct (mat_col_nth _ _ _ _ _ Hgc (mat_row_nth _ _ _ Egz))
      as [y' [Hgy Hny]].
    rewrite (np_repeat_nth vc n_repeats t r x' Hnx Hr) in Hx.
    rewrite (np_repeat_nth gc n_repeats t r y' Hny Hr) in Hy.
    injection Hx as <-. injection Hy as <-.
    exists x', y'. repeat split; assumption.
Qed.

(** X13: a gaze matrix with fewer rows than the value matrix makes
    [simulate_subject] fail as soon as a trial needs the missing row (with
    at least one repeat): no table is returned. *)
Theorem simulate_subject_short_gaze (fuel : nat) (p : parameters)
        (values gaze : matrix) (n_repeats : nat)
        (subject boundary error_weight : float)
        (error_range : float * float) (g : rng) :
  (length gaze < length values)%nat -> (0 < n_repeats)%nat ->
  forall res,
    subject_run fuel p values gaze n_repeats subject boundary error_weight
                error_range g <> Returned res.
Proof.
  intros Hshort Hrep [df g'] H. unfold subject_run, simulate_subject in H.
  destruct (mapM_st rng _ _ g) as [[sims g1]| |] eqn:Hsims;
    cbn [bind] in H; try discriminate.
  apply mapM_st_Forall2 in Hsims.
  pose proof (trial_repeats_nth (length values) n_repeats (length gaze) 0
                                Hshort Hrep) as Hk.
  destruct (Forall2_nth_error _ _ _ _ _ Hsims Hk)
    as [sim [_ [g0 [g2 Hbody]]]].
  bind_inv Hbody vs Evs. bind_inv Hbody gz Egz.
  apply mat_row_nth in Egz.
  assert (length gaze < length gaze)%nat
    by (apply nth_error_Some; congruence).
  lia.
Qed.

End SubjectProperties.

Lemma simulate_subject_table_witness :
  exists df g',
    simulate_subject nat uniform_low choice_first (invgauss_const (Fin 1)) 1
                     (Fin 1, Fin (1/5), Fin (1/5), Fin (1/2), Fin 300)
                     [[Fin 5; Fin 3]; [Fin 4; Fin 4]]
                     [[Fin (4/5); Fin (1/5)]; [Fin (1/2); Fin (1/2)]]
                     2 (Fin 7) (Fin 1) (Fin 1) (Fin 0, Fin 5) 0%nat =
    Returned (df, g') /\
    length df = (2 * 2)%nat /\
    forall t r, (t < 2)%nat -> (r < 2)%nat ->
      exists row' vs gz choice rt g0 g1,
        nth_error df (t * 2 + r) = Some row' /\
        mat_row [[Fin 5; Fin 3]; [Fin 4; Fin 4]] t = Returned vs /\
        mat_row [[Fin (4/5); Fin (1/5)]; [Fin (1/2); Fin (1/2)]] t =
        Returned gz /\
        simulate_trial nat uniform_low choice_first (invgauss_const (Fin 1)) 1
                       (Fin 1, Fin (1/5), Fin (1/5), Fin (1/2), Fin 300)
                       vs gz (Fin 1) (Fin 1) (Fin 0, Fin 5) g0 =
        Returned (choice, rt, g1) /\
        row_lookup row' "subject" = Some (Float (fmul (Fin 1) (Fin 7))) /\
        row_lookup row' "trial" = Some (Float (Fin (INR t))) /\
        row_lookup row' "repeat" = Some (Float (Fin (INR r))) /\
        row_lookup row' "choice" = Some (Float (choice_float choice)) /\
        row_lookup row' "rt" = Some (Float rt) /\
        forall i, (i < 2)%nat ->
          exists x y,
            np_get vs i = Returned x /\ np_get gz i = Returned y /\
            row_lookup row' (value_col i) = Some (Float x) /\
            row_lookup row' (gaze_col i) = Some (Float y).
Proof.
  destruct simulate_subject_example_run as [df [g' Hrun]].
  exists df, g'. split; [exact Hrun|].
  exact (simulate_subject_table nat uniform_low choice_first
           (invgauss_const (Fin 1)) _ _ _ _ _ _ _ _ _ _ _ _ Hrun).
Defined.

Lemma simulate_subject_short_gaze_witness :
  ~ exists res,
      simulate_subject nat uniform_low choice_first (invgauss_const (Fin 1)) 1
                       (Fin 1, Fin (1/5), Fin (1/5), Fin (1/2), Fin 300)
                       [[Fin 5; Fin 3]; [Fin 4; Fin 4]]
                       [[Fin (4/5); Fin (1/5)]]
                       1 (Fin 7) (Fin 1) (Fin 1) (Fin 0, Fin 5) 0%nat =
      Returned res.
Proof.
  intros [res H]. revert H.
  apply (simulate_subject_short_gaze nat uniform_low choice_first
           (invgauss_const (Fin 1))); simpl; lia.
Defined.

(** ** predict: which estimate is used *)

Lemma df_col_total (se : DataFrame) (k : string) :
  (forall e, In e se -> row_lookup e k <> None) ->
  exists cs, df_col se k = Returned cs /\ length cs = length se.
Proof.
  unfold df_col. induction se as [|e se IH]; intros H; simpl.
  - exists []. split; reflexivity.
  - unfold row_get at 1.
    destruct (row_lookup e k) as [c|] eqn:Hc;
      [|exfalso; exact (H e (or_introl eq_refl) Hc)].
    destruct IH as [cs [Hcs Hlen]]; [intros e' He'; apply H; right; exact He'|].
    rewrite Hcs. cbn [bind]. exists (c :: cs).
    split; [reflexivity | simpl; congruence].
Qed.

Lemma first_match_select (d parameter : string) (condition : cell)
      (e : row) (dc c : cell) (post : DataFrame) :
  row_lookup e d = Some dc -> cell_eqb dc condition = true ->
  row_lookup e parameter = Some c ->
  (forall e', In e' post ->
              row_lookup e' d <> None /\ row_lookup e' parameter <> None) ->
  forall pre,
    (forall e', In e' pre ->
       exists dc' pc', row_lookup e' d = Some dc' /\
                       cell_eqb dc' condition = false /\
                       row_lookup e' parameter = Some pc') ->
    exists dep par,
      df_col (pre ++ e :: post) d = Returned dep /\
      df_col (pre ++ e :: post) parameter = Returned par /\
      firstn 1 (select (map (fun x => cell_eqb x condition) dep) par) = [c].
Proof.
  intros Hd Heq Hp Hpost.
  destruct (df_col_total post d) as [dpost [Hdpost _]];
    [intros e' He'; apply Hpost; exact He'|].
  destruct (df_col_total post parameter) as [ppost [Hppost _]];
    [intros e' He'; apply Hpost; exact He'|].
  unfold df_col in *.
  induction pre as [|e0 pre IH]; intros Hpre; simpl.
  - unfold row_get at 1 3. rewrite Hd, Hp, Hdpost, Hppost. cbn [bind].
    exists (dc :: dpost), (c :: ppost).
    repeat split. simpl. rewrite Heq. reflexivity.
  - destruct (Hpre e0 (or_introl eq_refl)) as [dc' [pc' [Hd' [Hne Hp']]]].
    destruct IH as [dep [par [Hdep [Hpar Hsel]]]];
      [intros e' He'; apply Hpre; right; exact He'|].
    unfold row_get at 1 3. rewrite Hd', Hp', Hdep, Hpar. cbn [bind].
    exists (dc' :: dep), (pc' :: par).
    repeat split. simpl. rewrite Hne. exact Hsel.
Qed.

(** X14: for a parameter that depends on a condition column, the estimate
    used is the parameter cell of the first row of the subject's estimates
    whose condition cell equals the trial's; matching rows after it are
    ignored. *)
Theorem resolve_parameter_first_match (m : model) (r : row)
        (parameter d : string) (condition dc c : cell)
        (pre post : DataFrame) (e : row) :
  dict_get (depends_on m) parameter = Some d ->
  row_lookup r d = Some condition ->
  (forall e', In e' pre ->
     exists dc' pc', row_lookup e' d = Some dc' /\
                     cell_eqb dc' condition = false /\
                     row_lookup e' parameter = Some pc') ->
  row_lookup e d = Some dc -> cell_eqb dc condition = true ->
  row_lookup e parameter = Some c ->
  (forall e', In e' post ->
              row_lookup e' d <> None /\ row_lookup e' parameter <> None) ->
  resolve_parameter m r (pre ++ e :: post) parameter = assign_scalar [c].
Proof.
  intros Hdep Hcond Hpre Hd Heq Hp Hpost.
  unfold resolve_parameter, row_get. rewrite Hdep, Hcond. cbn [bind].
  destruct (first_match_select d parameter condition e dc c post
                               Hd Heq Hp Hpost pre Hpre)
    as [dep [par [Hdc [Hpc Hsel]]]].
  rewrite Hdc, Hpc. cbn [bind]. rewrite Hsel. reflexivity.
Qed.

Lemma resolve_parameter_first_match_witness :
  resolve_parameter example_model (observed 2 0 7 "B")
                    ([estimate 2 "A" 1] ++ estimate 2 "B" 2 ::
                     [estimate 2 "B" 3])
                    "v" =
  assign_scalar [Float (Fin 2)].
Proof.
  apply (resolve_parameter_first_match
           example_model (observed 2 0 7 "B") "v"%string "condition"%string
           (Str "B") (Str "B") (Float (Fin 2))
           [estimate 2 "A" 1] [estimate 2 "B" 3] (estimate 2 "B" 2)).
  - reflexivity.
  - reflexivity.
  - intros e' [<-|[]]. exists (Str "A"), (Float (Fin 1)).
    repeat split; reflexivity.
  - reflexivity.
  - reflexivity.
  - reflexivity.
  - intros e' [<-|[]]. split; discriminate.
Defined.

(** X15: for a parameter without a dependency, the estimate used is the
    parameter cell of the first row of the subject's estimates, whatever
    the trial. *)
Theorem resolve_parameter_no_dependency (m : model) (r : row)
        (parameter : string) (c : cell) (e : row) (rest : DataFrame) :
  dict_get (depends_on m) parameter = None ->
  row_lookup e parameter = Some c ->
  (forall e', In e' rest -> row_lookup e' parameter <> None) ->
  resolve_parameter m r (e :: rest) parameter = assign_scalar [c].
Proof.
  intros Hdep Hp Hrest. unfold resolve_parameter. rewrite Hdep.
  destruct (df_col_total rest parameter Hrest) as [cs [Hcs _]].
  unfold df_col in *. simpl. unfold row_get at 1.
  rewrite Hp, Hcs. reflexivity.
Qed.

Lemma resolve_parameter_no_dependency_witness :
  resolve_parameter example_model (observed 1 0 2 "A")
                    (estimate 1 "A" 1 :: [estimate 1 "B" 2]) "t0" =
  assign_scalar [Float (Fin 300)].
Proof.
  apply (resolve_parameter_no_dependency
           example_model (observed 1 0 2 "A") "t0"%string (Float (Fin 300))
           (estimate 1 "A" 1) [estimate 1 "B" 2]).
  - reflexivity.
  - reflexivity.
  - intros e' [<-|[]]. discriminate.
Defined.

(** ** predict: failures and the error range *)

Lemma select_subject_none (f : cell -> bool) (d : DataFrame) (cs : list cell) :
  df_col d "subject" = Returned cs ->
  (forall e, In e d -> forall c, row_lookup e "subject" = Some c ->
                                 f c = false) ->
  select (map f cs) d = [].
Proof.
  intros Hcol Hno.
  destruct (select (map f cs) d) as [|e se] eqn:E; [reflexivity|].
  destruct (select_subject_In f d cs e Hcol) as [Hin [c [Hc Hf]]].
  { rewrite E. left. reflexivity. }
  rewrite (Hno e Hin c Hc) in Hf. discriminate.
Qed.

Lemma resolve_parameter_empty (m : model) (r : row) (parameter : string) :
  lookup_failure (resolve_parameter m r [] parameter).
Proof.
  unfold resolve_parameter.
  destruct (dict_get (depends_on m) parameter) as [d|].
  - apply lookup_failure_bind_later; [apply row_get_cases|].
    intros c. left. reflexivity.
  - left. reflexivity.
Qed.

Lemma trial_inputs_unknown_subject (m : model) (r : row) (subject : cell) :
  row_lookup r "subject" = Some subject ->
  (forall e, In e (estimates m) ->
     forall sc, row_lookup e "subject" = Some sc ->
                cell_eqb sc subject = false) ->
  lookup_failure (trial_inputs m r).
Proof.
  intros Hsub Hno. unfold trial_inputs.
  unfold row_get at 1. rewrite Hsub. cbn [bind].
  apply lookup_failure_bind_later; [apply row_get_cases|]. intros _.
  destruct (df_col_cases (estimates m) "subject") as [[cs Hcs]|H];
    rewrite ?Hcs; cbn [bind]; [|apply lookup_failure_bind, H].
  rewrite (select_subject_none _ _ _ Hcs Hno).
  apply lookup_failure_bind. apply resolve_parameter_empty.
Qed.

Lemma fmin2_NaN_r (a : float) : fmin2 a NaN = NaN.
Proof. destruct a; reflexivity. Qed.

Lemma fmax2_NaN_r (a : float) : fmax2 a NaN = NaN.
Proof. destruct a; reflexivity. Qed.

Lemma fold_fmax2_NaN (t : list float) : fold_left fmax2 t NaN = NaN.
Proof. induction t as [|x t IH]; simpl; [reflexivity | exact IH]. Qed.

Lemma np_min_nan (l : list float) (m : float) :
  In NaN l -> np_min l = Returned m -> m = NaN.
Proof.
  destruct l as [|x t]; simpl; [intros []|].
  intros Hin H. injection H as <-. revert x Hin.
  induction t as [|y t IH]; intros x Hin; simpl.
  - destruct Hin as [->|[]]. reflexivity.
  - destruct Hin as [->|[->|Hin]].
    + apply fold_fmin2_NaN.
    + rewrite fmin2_NaN_r. apply fold_fmin2_NaN.
    + apply IH. right. exact Hin.
Qed.

Lemma np_max_nan (l : list float) (m : float) :
  In NaN l -> np_max l = Returned m -> m = NaN.
Proof.
  destruct l as [|x t]; simpl; [intros []|].
  intros Hin H. injection H as <-. revert x Hin.
  induction t as [|y t IH]; intros x Hin; simpl.
  - destruct Hin as [->|[]]. reflexivity.
  - destruct Hin as [->|[->|Hin]].
    + apply fold_fmax2_NaN.
    + rewrite fmax2_NaN_r. apply fold_fmax2_NaN.
    + apply IH. right. exact Hin.
Qed.

(** X18: a nan among the observed rt values of a subject makes the error
    range of every trial of that subject (nan, nan). *)
Theorem error_range_nan (m : model) (r : row) (p : parameters)
        (values gaze : list float) (error_range : float * float)
        (subject : cell) (rts : list float) :
  trial_inputs m r = Returned (p, values, gaze, error_range) ->
  row_lookup r "subject" = Some subject ->
  own_rts (data m) subject = Returned rts ->
  In NaN rts ->
  error_range = (NaN, NaN).
Proof.
  intros H Hsub Hown Hin.
  destruct (trial_inputs_inv m r p values gaze error_range H)
    as [subject' [subj_col [Hsub' [_ [_ Her]]]]].
  rewrite Hsub in Hsub'. injection Hsub' as <-.
  destruct (error_range_own m subject error_range Her)
    as [rts' [Hown' [Hmin Hmax]]].
  rewrite Hown in Hown'. injection Hown' as <-.
  destruct error_range as [lo hi]. simpl in *.
  rewrite (np_min_nan rts lo Hin Hmin), (np_max_nan rts hi Hin Hmax).
  reflexivity.
Qed.

Section PredictFailures.

Variable rng : Type.
Variable random_uniform : float -> float -> rng -> float * rng.
Variable random_choice : nat -> rng -> nat * rng.
Variable invgauss_rvs : float -> float -> rng -> float * rng.

Let run := predict rng random_uniform random_choice invgauss_rvs.

Lemma predict_fails_on_row (m : model) (r : row) :
  In r (data m) -> lookup_failure (trial_inputs m r) ->
  forall fuel n_repeats boundary error_weight verbose g res,
    run fuel m n_repeats boundary error_weight verbose g <> Returned res.
Proof.
  intros Hr Hfail fuel n_repeats boundary error_weight verbose g
         [table g'] H.
  unfold run, predict in H.
  bind_inv H subjects Es.
  destruct (mapM_st rng _ (data m) g) as [[groups g1]| |] eqn:Hloop;
    cbn [bind] in H; try discriminate.
  apply mapM_st_Forall2 in Hloop.
  destruct (Forall2_In_left _ _ _ r Hloop Hr) as [grp [g0 [g2 Hrow]]].
  apply predict_row_rows in Hrow.
  destruct Hrow as [p [values [gaze [er [Hin _]]]]].
  destruct Hfail as [Hf|Hf]; rewrite Hf in Hin; discriminate.
Qed.

(** X16: when no row of the estimates carries the subject of an observed
    trial, resolving the trial's parameters raises ValueError (or the
    KeyError of a missing label) and [predict] returns no table, whatever
    the dependencies and the number of repeats. *)
Theorem unknown_subject_fails (m : model) (r : row) (subject : cell) :
  In r (data m) ->
  row_lookup r "subject" = Some subject ->
  (forall e, In e (estimates m) ->
     forall sc, row_lookup e "subject" = Some sc ->
                cell_eqb sc subject = false) ->
  lookup_failure (trial_inputs m r) /\
  forall fuel n_repeats boundary error_weight verbose g res,
    run fuel m n_repeats boundary error_weight verbose g <> Returned res.
Proof.
  intros Hr Hsub Hno.
  pose proof (trial_inputs_unknown_subject m r subject Hsub Hno) as Hfail.
  split; [exact Hfail|].
  apply (predict_fails_on_row m r Hr Hfail).
Qed.

End PredictFailures.

Lemma error_range_nan_witness :
  trial_inputs missing_rt_model (observed 1 0 2 "A") =
  Returned ((Fin 1, Fin (1/5), Fin (1/5), Fin (1/2), Fin 300),
            [Fin 5; Fin 3], [Fin (4/5); Fin (1/5)], (NaN, NaN)) /\
  own_rts (data missing_rt_model) (Int 1) = Returned [Fin 2; NaN] /\
  (NaN, NaN) = (NaN, NaN) :> float * float.
Proof.
  split; [reflexivity|]. split; [reflexivity|].
  apply (error_range_nan missing_rt_model (observed 1 0 2 "A")
           (Fin 1, Fin (1/5), Fin (1/5), Fin (1/2), Fin 300)
           [Fin 5; Fin 3] [Fin (4/5); Fin (1/5)] (NaN, NaN)
           (Int 1) [Fin 2; NaN]).
  - reflexivity.
  - reflexivity.
  - reflexivity.
  - simpl. right. left. reflexivity.
Defined.

Lemma unknown_subject_fails_witness :
  lookup_failure (trial_inputs unknown_subject_model (observed 3 0 2 "A")) /\
  forall fuel n_repeats boundary error_weight verbose g res,
    predict nat uniform_low choice_first (invgauss_const (Fin 1))
            fuel unknown_subject_model n_repeats boundary error_weight
            verbose g <> Returned res.
Proof.
  apply (unknown_subject_fails nat uniform_low choice_first
           (invgauss_const (Fin 1)) unknown_subject_model
           (observed 3 0 2 "A") (Int 3)).
  - simpl. left. reflexivity.
  - reflexivity.
  - intros e [<-|[<-|[]]] sc H; simpl in H; injection H as <-; reflexivity.
Defined.

(** * Derived columns (glam/plots.py) *)

Lemma df_values_nth (df : DataFrame) (cols : list string) (vals : matrix)
      (k : nat) (r : row) :
  df_values df cols = Returned vals -> nth_error df k = Some r ->
  exists v, nth_error vals k = Some v /\
            mapM (fun c => x <- row_get r c ;; cell_float x) cols =
            Returned v.
Proof.
  unfold df_values. intros H Hk. apply mapM_Forall2 in H.
  destruct (Forall2_nth_error _ _ _ k r H Hk) as [v [Hv Hrow]].
  exists v. split; assumption.
Qed.

Lemma row_values_binary (r : row) (c0 c1 : string) (x y : float)
      (v : list float) :
  row_lookup r c0 = Some (Float x) -> row_lookup r c1 = Some (Float y) ->
  mapM (fun c => z <- row_get r c ;; cell_float z) [c0; c1] = Returned v ->
  v = [x; y].
Proof.
  intros H0 H1. simpl. unfold row_get. rewrite H0, H1. simpl.
  intros H. injection H as <-. reflexivity.
Qed.

Lemma derived_column_nth (df df' : DataFrame) (label : string)
      (f : list float -> float) (vals : matrix) (k : nat) (r : row)
      (v : list float) :
  df_set_col df label (map Float (map f vals)) = Returned df' ->
  nth_error df k = Some r -> nth_error vals k = Some v ->
  nth_error df' k = Some (row_set r label (Float (f v))).
Proof.
  intros Hset Hk Hv.
  destruct (df_set_col_nth _ _ _ _ Hset) as [_ Hrows].
  destruct (Hrows k r Hk) as [c [Hc Hr']].
  rewrite !nth_error_map, Hv in Hc. simpl in Hc. injection Hc as <-.
  exact Hr'.
Qed.

Lemma np_mean_single (y : R) : np_mean [Fin y] = Fin y.
Proof.
  unfold np_mean, np_sum. simpl. rewrite Reqb_false by lra.
  f_equal. field.
Qed.

Lemma np_mean_empty : np_mean [] = NaN.
Proof.
  unfold np_mean, np_sum. simpl. unfold finf_times.
  rewrite Reqb_true by reflexivity. rewrite !Rltb_false by lra. reflexivity.
Qed.

(** X19: with two item columns holding the finite values a and b in a row,
    [add_left_minus_mean_others] writes a - b in that row (the binary case
    of the docstring) and leaves its other cells as they are. *)
Theorem left_minus_mean_others_binary (df df' : DataFrame) (c0 c1 : string)
        (k : nat) (r : row) (a b : R) :
  filter (String.prefix "item_value_") (df_columns df) = [c0; c1] ->
  add_left_minus_mean_others df = Returned df' ->
  nth_error df k = Some r ->
  row_lookup r c0 = Some (Float (Fin a)) ->
  row_lookup r c1 = Some (Float (Fin b)) ->
  nth_error df' k =
  Some (row_set r "left_minus_mean_others" (Float (Fin (a - b)))).
Proof.
  intros Hcols H Hk H0 H1. unfold add_left_minus_mean_others in H.
  rewrite Hcols in H. bind_inv H vals Evals. simpl in H.
  destruct (df_values_nth _ _ _ _ _ Evals Hk) as [v [Hv Hrow]].
  rewrite (row_values_binary r c0 c1 _ _ v H0 H1 Hrow) in Hv.
  rewrite (derived_column_nth _ _ _ _ _ _ _ _ H Hk Hv).
  simpl hd. simpl tl. rewrite np_mean_single. reflexivity.
Qed.

(** X20: with two item columns holding the finite values a and b in a row,
    [add_difficulty] writes |a - b| in that row (the binary case of the
    docstring). *)
Theorem difficulty_binary (df df' : DataFrame) (c0 c1 : string)
        (k : nat) (r : row) (a b : R) :
  filter (String.prefix "item_value_") (df_columns df) = [c0; c1] ->
  add_difficulty df = Returned df' ->
  nth_error df k = Some r ->
  row_lookup r c0 = Some (Float (Fin a)) ->
  row_lookup r c1 = Some (Float (Fin b)) ->
  nth_error df' k =
  Some (row_set r "difficulty" (Float (Fin (Rabs (a - b))))).
Proof.
  intros Hcols H Hk H0 H1. unfold add_difficulty in H.
  rewrite Hcols in H. bind_inv H vals Evals. simpl in H.
  destruct (df_values_nth _ _ _ _ _ Evals Hk) as [v [Hv Hrow]].
  rewrite (row_values_binary r c0 c1 _ _ v H0 H1 Hrow) in Hv.
  rewrite (map_map np_sort) in H.
  rewrite (derived_column_nth _ _ _ _ _ _ _ _ H Hk Hv).
  do 3 f_equal. unfold np_sort. simpl. unfold Rltb.
  destruct (Rlt_dec a b) as [Hlt|Hge]; simpl; rewrite np_mean_single; simpl;
    f_equal.
  - rewrite Rabs_left by lra. lra.
  - rewrite Rabs_right by lra. lra.
Qed.

Lemma row_values_cons (r : row) (c0 : string) (rest : list string)
      (v : list float) :
  mapM (fun k => z <- row_get r k ;; cell_float z) (c0 :: rest) = Returned v ->
  exists x, (z <- row_get r c0 ;; cell_float z) = Returned x /\
            mapM (fun k => z <- row_get r k ;; cell_float z) rest =
            Returned (tl v) /\
            hd NaN v = x.
Proof.
  cbn [mapM]. intros H.
  bind_inv H x Ex. bind_inv H t Et. injection H as <-.
  exists x. repeat split; reflexivity.
Qed.

Lemma df_values_tail (df : DataFrame) (c0 : string) (rest : list string) :
  forall vals, df_values df (c0 :: rest) = Returned vals ->
               df_values df rest = Returned (map (@tl float) vals).
Proof.
  unfold df_values. induction df as [|r df IH]; intros vals H.
  - injection H as <-. reflexivity.
  - cbn [mapM] in H. bind_inv H v Ev. bind_inv H vs Evs. injection H as <-.
    change (x <- (z <- row_get r c0 ;; cell_float z) ;;
            t <- mapM (fun k => z <- row_get r k ;; cell_float z) rest ;;
            Returned (x :: t))
      with (mapM (fun k => z <- row_get r k ;; cell_float z) (c0 :: rest))
      in Ev.
    destruct (row_values_cons r c0 rest v Ev) as [x [_ [Ht _]]].
    change (mapM (fun r0 => mapM (fun k => z <- row_get r0 k ;; cell_float z)
                                 rest) (r :: df))
      with (b <- mapM (fun k => z <- row_get r k ;; cell_float z) rest ;;
            bs <- mapM (fun r0 => mapM (fun k => z <- row_get r0 k ;;
                                                 cell_float z) rest) df ;;
            Returned (b :: bs)).
    rewrite Ht, bind_Returned, (IH vs Evs). reflexivity.
Qed.

(** X21: [add_left_relative_value] subtracts one number from the left value
    of every row: the mean of the other items' values of all rows taken
    together ([np.mean] without an axis over [values[:, 1:]]), not the mean
    of the row's own other items.  Row k of the result is row k of the table
    with left_relative_value set to its left value minus that mean, so two
    rows with the same left value get the same left_relative_value, whatever
    their other items. *)
Theorem left_relative_value_shared (df df' : DataFrame) (c0 : string)
        (rest : list string) :
  filter (String.prefix "item_value_") (df_columns df) = c0 :: rest ->
  add_left_relative_value df = Returned df' ->
  exists others : matrix,
    df_values df rest = Returned others /\
    length df' = length df /\
    (forall k r, nth_error df k = Some r ->
       exists x,
         (c <- row_get r c0 ;; cell_float c) = Returned x /\
         nth_error df' k =
         Some (row_set r "left_relative_value"
                       (Float (fsub x (np_mean (concat others)))))) /\
    (forall k k' r r',
       nth_error df k = Some r -> nth_error df k' = Some r' ->
       row_lookup r c0 = row_lookup r' c0 ->
       exists y,
         nth_error df' k = Some (row_set r "left_relative_value" y) /\
         nth_error df' k' = Some (row_set r' "left_relative_value" y)).
Proof.
  intros Hcols H. unfold add_left_relative_value in H.
  rewrite Hcols in H. bind_inv H vals Evals. simpl in H.
  assert (Hrow : forall k r, nth_error df k = Some r ->
            exists x,
              (c <- row_get r c0 ;; cell_float c) = Returned x /\
              nth_error df' k =
              Some (row_set r "left_relative_value"
                      (Float (fsub x (np_mean (concat (map (@tl float)
                                                           vals))))))).
  { intros k r Hk.
    destruct (df_values_nth _ _ _ _ _ Evals Hk) as [v [Hv Hread]].
    destruct (row_values_cons r c0 rest v Hread) as [x [Hx [_ Hhd]]].
    exists x. split; [exact Hx|]. rewrite <- Hhd.
    exact (derived_column_nth
             df df' "left_relative_value"
             (fun v0 => fsub (hd NaN v0)
                             (np_mean (concat (map (@tl float) vals))))
             vals k r v H Hk Hv). }
  exists (map (@tl float) vals). split; [|split; [|split]].
  - exact (df_values_tail df c0 rest vals Evals).
  - destruct (df_set_col_nth _ _ _ _ H) as [Hlen _]. exact Hlen.
  - exact Hrow.
  - intros k k' r r' Hk Hk' Heq.
    destruct (Hrow k r Hk) as [x [Hx Hset1]].
    destruct (Hrow k' r' Hk') as [x' [Hx' Hset2]].
    unfold row_get in Hx, Hx'. rewrite Heq, Hx' in Hx. injection Hx as <-.
    exists (Float (fsub x' (np_mean (concat (map (@tl float) vals))))).
    split; assumption.
Qed.

Lemma df_values_no_column (df : DataFrame) :
  df_values df [] = Returned (map (fun _ => []) df).
Proof.
  unfold df_values. apply mapM_map. intros r _. reflexivity.
Qed.

(** X22: on a table without an item_value column (the empty table is one)
    the three functions raise IndexError: the first column of an array
    without columns does not exist. *)
Theorem derived_columns_need_items (df : DataFrame) :
  filter (String.prefix "item_value_") (df_columns df) = [] ->
  add_difficulty df = Raised IndexError /\
  add_left_minus_mean_others df = Raised IndexError /\
  add_left_relative_value df = Raised IndexError.
Proof.
  intros Hcols.
  unfold add_difficulty, add_left_minus_mean_others, add_left_relative_value.
  rewrite Hcols, df_values_no_column. repeat split.
Qed.

Lemma row_values_single (r : row) (c0 : string) (v : list float) :
  mapM (fun k => z <- row_get r k ;; cell_float z) [c0] = Returned v ->
  exists x, v = [x].
Proof.
  simpl. intros H. bind_inv H x Ex. injection H as <-. exists x. reflexivity.
Qed.

Lemma fsub_NaN_r (x : float) : fsub x NaN = NaN.
Proof. destruct x; reflexivity. Qed.

Lemma derived_column_all (df df' : DataFrame) (label : string)
      (f : list float -> float) (cols : list string) (vals : matrix)
      (y : float) :
  df_values df cols = Returned vals ->
  (forall r v, mapM (fun k => z <- row_get r k ;; cell_float z) cols =
               Returned v -> f v = y) ->
  df_set_col df label (map Float (map f vals)) = Returned df' ->
  Forall (fun r' => row_lookup r' label = Some (Float y)) df'.
Proof.
  intros Hvals Hf Hset.
  destruct (df_set_col_nth _ _ _ _ Hset) as [Hlen _].
  apply Forall_forall. intros r' Hin.
  destruct (In_nth_error _ _ Hin) as [k Hk'].
  assert (Hlt : (k < length df)%nat)
    by (rewrite <- Hlen; apply nth_error_Some; congruence).
  destruct (nth_error df k) as [r|] eqn:Hk;
    [|apply nth_error_None in Hk; lia].
  destruct (df_values_nth _ _ _ _ _ Hvals Hk) as [v [Hv Hrow]].
  rewrite (derived_column_nth _ _ _ _ _ _ _ _ Hset Hk Hv) in Hk'.
  injection Hk' as <-. rewrite (Hf r v Hrow). apply row_lookup_set_same.
Qed.

(** X23: with a single item column the mean of the other items is the
    mean of an empty slice, nan: [add_left_minus_mean_others] and
    [add_difficulty] write nan in every row. *)
Theorem single_item_column_nan (df : DataFrame) (c0 : string) :
  filter (String.prefix "item_value_") (df_columns df) = [c0] ->
  (forall df', add_left_minus_mean_others df = Returned df' ->
     Forall (fun r' => row_lookup r' "left_minus_mean_others" =
                       Some (Float NaN)) df') /\
  (forall df', add_difficulty df = Returned df' ->
     Forall (fun r' => row_lookup r' "difficulty" = Some (Float NaN)) df').
Proof.
  intros Hcols. split; intros df' H.
  - unfold add_left_minus_mean_others in H. rewrite Hcols in H.
    bind_inv H vals Evals. simpl in H.
    refine (derived_column_all _ _ _ _ _ _ _ Evals _ H).
    intros r v Hv. destruct (row_values_single r c0 v Hv) as [x ->].
    simpl. rewrite np_mean_empty. apply fsub_NaN_r.
  - unfold add_difficulty in H. rewrite Hcols in H.
    bind_inv H vals Evals. simpl in H. rewrite (map_map np_sort) in H.
    refine (derived_column_all _ _ _ _ _ _ _ Evals _ H).
    intros r v Hv. destruct (row_values_single r c0 v Hv) as [x ->].
    simpl. rewrite np_mean_empty. apply fsub_NaN_r.
Qed.

Lemma derived_columns_runs :
  (exists df', add_left_minus_mean_others (data example_model) = Returned df') /\
  (exists df', add_difficulty (data example_model) = Returned df') /\
  (exists df', add_left_relative_value same_left_table = Returned df') /\
  (exists df', add_left_minus_mean_others one_value_table = Returned df') /\
  (exists df', add_difficulty one_value_table = Returned df').
Proof.
  repeat split; eexists; reflexivity.
Qed.

Lemma left_minus_mean_others_binary_witness :
  exists df',
    add_left_minus_mean_others (data example_model) = Returned df' /\
    nth_error df' 1 =
    Some (row_set (observed 1 1 4 "A") "left_minus_mean_others"
                  (Float (Fin (5 - 3)))).
Proof.
  destruct derived_columns_runs as [[df' Hrun] _].
  exists df'. split; [exact Hrun|].
  apply (left_minus_mean_others_binary
           (data example_model) df' "item_value_0" "item_value_1"
           1%nat (observed 1 1 4 "A") 5 3); try reflexivity.
  exact Hrun.
Defined.

Lemma difficulty_binary_witness :
  exists df',
    add_difficulty (data example_model) = Returned df' /\
    nth_error df' 1 =
    Some (row_set (observed 1 1 4 "A") "difficulty"
                  (Float (Fin (Rabs (5 - 3))))).
Proof.
  destruct derived_columns_runs as [_ [[df' Hrun] _]].
  exists df'. split; [exact Hrun|].
  apply (difficulty_binary
           (data example_model) df' "item_value_0" "item_value_1"
           1%nat (observed 1 1 4 "A") 5 3); try reflexivity.
  exact Hrun.
Defined.

Lemma left_relative_value_run :
  add_left_relative_value same_left_table = Returned same_left_relative.
Proof. reflexivity. Qed.

Lemma left_relative_value_shared_witness :
  np_mean [Fin 3; Fin 1] = Fin 2 /\
  exists others : matrix,
    df_values same_left_table ["item_value_1"%string] = Returned others /\
    length same_left_relative = length same_left_table /\
    (forall k r, nth_error same_left_table k = Some r ->
       exists x,
         (c <- row_get r "item_value_0" ;; cell_float c) = Returned x /\
         nth_error same_left_relative k =
         Some (row_set r "left_relative_value"
                       (Float (fsub x (np_mean (concat others)))))) /\
    (forall k k' r r',
       nth_error same_left_table k = Some r ->
       nth_error same_left_table k' = Some r' ->
       row_lookup r "item_value_0" = row_lookup r' "item_value_0" ->
       exists y,
         nth_error same_left_relative k =
         Some (row_set r "left_relative_value" y) /\
         nth_error same_left_relative k' =
         Some (row_set r' "left_relative_value" y)).
Proof.
  split.
  - unfold np_mean, np_sum. simpl. rewrite Reqb_false by lra.
    f_equal. field.
  - apply (left_relative_value_shared
             same_left_table same_left_relative
             "item_value_0" ["item_value_1"%string]).
    + reflexivity.
    + exact left_relative_value_run.
Defined.

Lemma derived_columns_need_items_witness :
  add_difficulty no_value_table = Raised IndexError /\
  add_left_minus_mean_others no_value_table = Raised IndexError /\
  add_left_relative_value no_value_table = Raised IndexError.
Proof.
  apply (derived_columns_need_items no_value_table). reflexivity.
Defined.

Lemma single_item_column_nan_witness :
  (forall df', add_left_minus_mean_others one_value_table = Returned df' ->
     Forall (fun r' => row_lookup r' "left_minus_mean_others" =
                       Some (Float NaN)) df') /\
  (forall df', add_difficulty one_value_table = Returned df' ->
     Forall (fun r' => row_lookup r' "difficulty" = Some (Float NaN)) df').
Proof.
  apply (single_item_column_nan one_value_table "item_value_0"). reflexivity.
Defined.

(** X24: with two gaze columns holding the finite values a and b in a row,
    [add_left_gaze_advantage] writes a - b in that row (the binary case of
    the docstring). *)
Theorem left_gaze_advantage_binary (df df' : DataFrame) (c0 c1 : string)
        (k : nat) (r : row) (a b : R) :
  filter (String.prefix "gaze_") (df_columns df) = [c0; c1] ->
  add_left_gaze_advantage df = Returned df' ->
  nth_error df k = Some r ->
  row_lookup r c0 = Some (Float (Fin a)) ->
  row_lookup r c1 = Some (Float (Fin b)) ->
  nth_error df' k =
  Some (row_set r "left_gaze_advantage" (Float (Fin (a - b)))).
Proof.
  intros Hcols H Hk H0 H1. unfold add_left_gaze_advantage in H.
  rewrite Hcols in H. bind_inv H vals Evals. simpl in H.
  destruct (df_values_nth _ _ _ _ _ Evals Hk) as [v [Hv Hrow]].
  rewrite (row_values_binary r c0 c1 _ _ v H0 H1 Hrow) in Hv.
  rewrite (derived_column_nth _ _ _ _ _ _ _ _ H Hk Hv).
  simpl hd. simpl tl. rewrite np_mean_single. reflexivity.
Qed.

Lemma left_gaze_advantage_run :
  exists df', add_left_gaze_advantage (data example_model) = Returned df'.
Proof. eexists. reflexivity. Qed.

Lemma left_gaze_advantage_binary_witness :
  exists df',
    add_left_gaze_advantage (data example_model) = Returned df' /\
    nth_error df' 2 =
    Some (row_set (observed 2 0 7 "A") "left_gaze_advantage"
                  (Float (Fin (4/5 - 1/5)))).
Proof.
  destruct left_gaze_advantage_run as [df' Hrun].
  exists df'. split; [exact Hrun|].
  apply (left_gaze_advantage_binary
           (data example_model) df' "gaze_0" "gaze_1"
           2%nat (observed 2 0 7 "A") (4/5) (1/5)); try reflexivity.
  exact Hrun.
Defined.
